(** * Earthquake visualizer: the data-loading, filtering and rendering pipeline

    A shallow embedding of [src/App.tsx] and [src/MapView.tsx]:
    - [JS]       the fragment of the JavaScript platform the two files use
                 (numbers with their special values, [>=], [+], [*],
                 [Math.max], [??], template-literal printing of integers);
    - [Feed]     the GeoJSON types declared at the top of [App.tsx];
    - [Effects]  a state-and-exception monad for the body of [loadData]
                 ([try]/[catch]/[finally] over the five [useState] cells);
    - [App]      the component [App]: [loadData], the event handlers,
                 [filtered], [MagnitudeLegend] and [magToColor];
    - [MapView]  the marker computed for each feature.

    Numbers.  A JavaScript number is an IEEE-754 double.  Here a finite double
    is represented by the rational it denotes, next to the three special values
    [Infinity], [-Infinity] and [NaN].  Comparison of doubles is comparison of
    the denoted values, so [>=] is exact in this representation.  [+] and [*]
    are correctly rounded, as IEEE-754 prescribes: the exact sum or product of
    the denoted values is rounded to the nearest double, ties to the even
    mantissa, with gradual underflow and with overflow to an infinity
    ([JS.round]).  [Binary64] checks these operations against the binary64
    arithmetic of the Rocq kernel on sample values.  The sign of zero is not
    represented. *)

From Stdlib Require Import QArith Qminmax ZArith NArith List String Ascii Bool Lia.
From Stdlib Require Import Lqa Qround Qpower.
From Stdlib Require PrimFloat FloatOps SpecFloat.
From Stdlib Require Import DecimalString DecimalPos DecimalN.
Import ListNotations.

Local Open Scope string_scope.

(* ===================================================================== *)
(** ** The JavaScript fragment *)
(* ===================================================================== *)

Module JS.

Inductive number : Type :=
| Num (q : Q)
| PosInf
| NegInf
| NaN.

Definition of_N (n : N) : number := Num (inject_Z (Z.of_N n)).

(** [a >= b].  Every comparison with [NaN] is false. *)
Definition ge (a b : number) : bool :=
  match a, b with
  | NaN, _ | _, NaN => false
  | PosInf, _ => true
  | _, NegInf => true
  | Num x, Num y => Qle_bool y x
  | Num _, PosInf => false
  | NegInf, _ => false
  end.

(** [a < b]. *)
Definition lt (a b : number) : bool :=
  match a, b with
  | NaN, _ | _, NaN => false
  | PosInf, _ => false
  | _, NegInf => false
  | Num x, Num y => negb (Qle_bool y x)
  | Num _, PosInf => true
  | NegInf, _ => true
  end.

Definition is_zero (q : Q) : bool := Qeq_bool q 0.
Definition is_neg (q : Q) : bool := negb (Qle_bool 0 q).

Definition neg (a : number) : number :=
  match a with
  | Num x => Num (- x)
  | PosInf => NegInf
  | NegInf => PosInf
  | NaN => NaN
  end.

(** *** Rounding to the nearest double *)

Definition pow2 (z : Z) : Q := 2 ^ z.

(** The integer part of the binary logarithm of a positive rational:
    [2 ^ flog2 q <= q < 2 ^ (flog2 q + 1)]. *)
Definition flog2 (q : Q) : Z :=
  let g := (Z.log2 (Qnum q) - Z.log2 (Zpos (Qden q)))%Z in
  if Qle_bool (pow2 g) q then g else (g - 1)%Z.

(** The nearest integer, a tie going to the even one. *)
Definition rne (z : Q) : Z :=
  let f := Qfloor z in
  match Qcompare (z - inject_Z f) (1 # 2) with
  | Lt => f
  | Gt => (f + 1)%Z
  | Eq => if Z.even f then f else (f + 1)%Z
  end.

(** The exponent of the binade of [q], not below that of the subnormals. *)
Definition exponent (q : Q) : Z := Z.max (flog2 q) (-1022).

(** The spacing of the doubles around [q]: 53 bits of mantissa. *)
Definition ulp (q : Q) : Q := pow2 (exponent q - 52).

(** The multiple of [ulp q] nearest to the positive [q]. *)
Definition nearest (q : Q) : Q := inject_Z (rne (q / ulp q)) * ulp q.

(** A positive rational rounded to a double: from [2 ^ 1024] on the result
    is [Infinity]. *)
Definition round_pos (q : Q) : number :=
  let r := nearest q in
  if Qle_bool (pow2 1024) r then PosInf else Num (Qred r).

(** A rational rounded to a double. *)
Definition round (q : Q) : number :=
  match Qcompare q 0 with
  | Eq => Num 0
  | Gt => round_pos q
  | Lt => neg (round_pos (- q))
  end.

(** [a + b]; [Infinity + -Infinity] is [NaN]. *)
Definition add (a b : number) : number :=
  match a, b with
  | NaN, _ | _, NaN => NaN
  | PosInf, NegInf | NegInf, PosInf => NaN
  | PosInf, _ | _, PosInf => PosInf
  | NegInf, _ | _, NegInf => NegInf
  | Num x, Num y => round (x + y)
  end.

(** An infinity times the finite [x]; [Infinity * 0] is [NaN]. *)
Definition scale_inf (inf : number) (x : Q) : number :=
  if is_zero x then NaN else if is_neg x then neg inf else inf.

(** [a * b]. *)
Definition mul (a b : number) : number :=
  match a, b with
  | NaN, _ | _, NaN => NaN
  | Num x, Num y => round (x * y)
  | Num x, inf => scale_inf inf x
  | inf, Num y => scale_inf inf y
  | PosInf, PosInf | NegInf, NegInf => PosInf
  | PosInf, NegInf | NegInf, PosInf => NegInf
  end.

(** [Math.max(a, b)]: [NaN] as soon as one argument is [NaN]. *)
Definition Math_max (a b : number) : number :=
  match a, b with
  | NaN, _ | _, NaN => NaN
  | _, _ => if ge a b then a else b
  end.

(** [o ?? d]: [null] and [undefined] are both [None]. *)
Definition nullish {A : Type} (o : option A) (d : A) : A :=
  match o with
  | Some v => v
  | None => d
  end.

(** [`${n}`] for a non-negative integer [n]. *)
Definition N_toString (n : N) : string :=
  NilZero.string_of_uint (N.to_uint n).

(** [a?.f]: the field of [a], or [undefined] when [a] is nullish. *)
Definition optional_chain {A B : Type} (a : option A) (f : A -> option B) : option B :=
  match a with
  | Some v => f v
  | None => None
  end.

(** [a || d] where [a] is an array or absent: an array, even an empty one,
    is truthy, so [d] is taken only when [a] is absent. *)
Definition or_else {A : Type} (a : option (list A)) (d : list A) : list A :=
  match a with
  | Some l => l
  | None => d
  end.

(** Truthiness of an integer-valued number. *)
Definition truthy_N (n : N) : bool := negb (n =? 0)%N.

(** Truthiness of a number: [0] and [NaN] are falsy. *)
Definition truthy (a : number) : bool :=
  match a with
  | Num q => negb (Qeq_bool q 0)
  | PosInf | NegInf => true
  | NaN => false
  end.

(** Truthiness of a string: the empty string is falsy. *)
Definition truthy_string (s : string) : bool :=
  match s with
  | EmptyString => false
  | String _ _ => true
  end.

End JS.

Declare Scope js_scope.
Delimit Scope js_scope with js.
Bind Scope js_scope with JS.number.

Notation "a ?? d" := (JS.nullish a d) (at level 45, left associativity) : js_scope.
Notation "a >= b" := (JS.ge a b) : js_scope.
Notation "a < b" := (JS.lt a b) : js_scope.
Notation "a + b" := (JS.add a b) : js_scope.
Notation "a * b" := (JS.mul a b) : js_scope.

(* ===================================================================== *)
(** ** The feed: types of [App.tsx], lines 4-24 *)
(* ===================================================================== *)

Module Feed.

Record Properties : Type := {
  mag : option JS.number;      (* number | null *)
  place : option string;       (* string | null *)
  time : JS.number;            (* epoch ms *)
  url : string
}.

(** [type] is the constant ['Point']; [coordinates] is [[lon, lat, depth]]. *)
Record Geometry : Type := {
  coordinates : JS.number * JS.number * JS.number
}.

Record EarthquakeFeature : Type := {
  id : string;
  properties : Properties;
  geometry : Geometry
}.

Record Metadata : Type := {
  generated : option JS.number
}.

(** The parsed body.  The declared type makes both fields mandatory, but the
    cast of [res.json()] checks nothing and [loadData] reads them with
    [||], [?.] and [??]; a field the body lacks (or has as [null]) is [None].
    A field that is present has its declared type. *)
Record EarthquakeResponse : Type := {
  metadata : option Metadata;
  features : option (list EarthquakeFeature)
}.

Definition FEED_URL : string :=
  "https://earthquake.usgs.gov/earthquakes/feed/v1.0/summary/all_day.geojson".

End Feed.

(* ===================================================================== *)
(** ** What the platform answers to [loadData] *)
(* ===================================================================== *)

Module Net.

(** A thrown value, as the [catch] clause tells them apart:
    [e instanceof Error] or anything else. *)
Inductive Thrown : Type :=
| ThrownError (message : string)
| ThrownOther.

(** What [await res.json()] resolves to.  On [null] a property read throws a
    [TypeError], whose message is the engine's.  Any other parsed value is
    read as an object: a primitive or an array has neither [features] nor
    [metadata], like an object without them. *)
Inductive Json : Type :=
| JsonNull (typeErrorMessage : string)
| JsonObject (r : Feed.EarthquakeResponse).

(** The outcome of [await res.json()]: the promise rejects when the body is
    not JSON (or cannot be read), else it resolves to the parsed value. *)
Inductive Body : Type :=
| BodyRejects (e : Thrown)
| BodyResolves (json : Json).

Record Response : Type := {
  status : N;
  body : Body
}.

(** [res.ok]: the status is in the range 200-299. *)
Definition ok (res : Response) : bool :=
  (200 <=? status res)%N && (status res <=? 299)%N.

(** The outcome of [await fetch(...)]: it rejects when no response arrives. *)
Inductive FetchResult : Type :=
| FetchRejects (e : Thrown)
| FetchResolves (res : Response).

(** Everything one run of [loadData] reads from outside:
    the answer to [fetch] and the value of [Date.now()]. *)
Record Env : Type := {
  fetched : FetchResult;
  now : JS.number
}.

End Net.

(* ===================================================================== *)
(** ** State and exceptions *)
(* ===================================================================== *)

Module Effects.

Inductive Result (A : Type) : Type :=
| Returned (a : A)
| Threw (e : Net.Thrown).
Arguments Returned {A} a.
Arguments Threw {A} e.

(** A computation over a store [S]: it returns or throws, and either way
    leaves a store behind (a write made before a [throw] stays made). *)
Definition M (S A : Type) : Type := S -> Result A * S.

Definition ret {S A : Type} (a : A) : M S A := fun s => (Returned a, s).

Definition throw {S A : Type} (e : Net.Thrown) : M S A := fun s => (Threw e, s).

Definition bind {S A B : Type} (m : M S A) (k : A -> M S B) : M S B :=
  fun s =>
    match m s with
    | (Returned a, s1) => k a s1
    | (Threw e, s1) => (Threw e, s1)
    end.

Definition modify {S : Type} (f : S -> S) : M S unit := fun s => (Returned tt, f s).

(** [try { body } catch (e) { handler e } finally { fin }].  [fin] runs on
    every path; what [handler] throws is thrown again after [fin]. *)
Definition try_catch_finally {S : Type}
    (body : M S unit) (handler : Net.Thrown -> M S unit) (fin : M S unit) : M S unit :=
  fun s =>
    match body s with
    | (Returned _, s1) => fin s1
    | (Threw e, s1) =>
        match handler e s1 with
        | (Returned _, s2) => fin s2
        | (Threw e', s2) =>
            match fin s2 with
            | (Returned _, s3) => (Threw e', s3)
            | (Threw e'', s3) => (Threw e'', s3)
            end
        end
    end.

Definition exec {S A : Type} (m : M S A) (s : S) : S := snd (m s).

Definition outcome {S A : Type} (m : M S A) (s : S) : Result A := fst (m s).

End Effects.

Notation "x <- m ;; k" := (Effects.bind m (fun x => k))
  (at level 61, m at next level, right associativity).
Notation "m ;; k" := (Effects.bind m (fun _ => k))
  (at level 61, right associativity).

(* ===================================================================== *)
(** ** [App.tsx] *)
(* ===================================================================== *)

Module App.

Import Effects.

(** The five [useState] cells of [App], lines 27-31. *)
Record State : Type := {
  features : list Feed.EarthquakeFeature;
  minMag : JS.number;
  loading : bool;
  error : option string;
  lastUpdated : option JS.number
}.

Definition initial : State := {|
  features := [];
  minMag := JS.of_N 0;
  loading := true;
  error := None;
  lastUpdated := None
|}.

Definition setFeatures (v : list Feed.EarthquakeFeature) : M State unit :=
  modify (fun s => {| features := v; minMag := minMag s; loading := loading s;
                      error := error s; lastUpdated := lastUpdated s |}).

Definition setMinMag (v : JS.number) : M State unit :=
  modify (fun s => {| features := features s; minMag := v; loading := loading s;
                      error := error s; lastUpdated := lastUpdated s |}).

Definition setLoading (v : bool) : M State unit :=
  modify (fun s => {| features := features s; minMag := minMag s; loading := v;
                      error := error s; lastUpdated := lastUpdated s |}).

Definition setError (v : option string) : M State unit :=
  modify (fun s => {| features := features s; minMag := minMag s; loading := loading s;
                      error := v; lastUpdated := lastUpdated s |}).

Definition setLastUpdated (v : option JS.number) : M State unit :=
  modify (fun s => {| features := features s; minMag := minMag s; loading := loading s;
                      error := error s; lastUpdated := v |}).

(** *** [loadData], lines 33-48 *)

(** [await fetch(FEED_URL, { cache: 'no-store' })]. *)
Definition await_fetch (env : Net.Env) : M State Net.Response :=
  match Net.fetched env with
  | Net.FetchRejects e => throw e
  | Net.FetchResolves res => ret res
  end.

(** [await res.json()]. *)
Definition await_json (res : Net.Response) : M State Net.Json :=
  match Net.body res with
  | Net.BodyRejects e => throw e
  | Net.BodyResolves json => ret json
  end.

(** [json.f]: reading a property of [null] throws. *)
Definition read {A : Type} (json : Net.Json) (f : Feed.EarthquakeResponse -> A) : M State A :=
  match json with
  | Net.JsonNull msg => throw (Net.ThrownError msg)
  | Net.JsonObject r => ret (f r)
  end.

(** The two statements before the [try]: they run before [fetch] is called. *)
Definition loadData_begin : M State unit :=
  setLoading true ;;
  setError None.

(** The [try] block, lines 37-41. *)
Definition loadData_try (env : Net.Env) : M State unit :=
  res <- await_fetch env ;;
  if negb (Net.ok res)
  then throw (Net.ThrownError ("HTTP " ++ JS.N_toString (Net.status res)))
  else
    json <- await_json res ;;
    fs <- read json Feed.features ;;
    setFeatures (JS.or_else fs []) ;;
    md <- read json Feed.metadata ;;
    setLastUpdated (Some (JS.optional_chain md Feed.generated ?? Net.now env)%js).

(** The [catch] clause, lines 43-44. *)
Definition loadData_catch (e : Net.Thrown) : M State unit :=
  let message :=
    match e with
    | Net.ThrownError m => m             (* e instanceof Error ? e.message *)
    | Net.ThrownOther => "Unknown error"
    end in
  setError (Some message).

(** The [finally] clause, line 46. *)
Definition loadData_finally : M State unit :=
  setLoading false.

(** What runs once the awaited [fetch] has settled. *)
Definition loadData_resume (env : Net.Env) : M State unit :=
  try_catch_finally (loadData_try env) loadData_catch loadData_finally.

(** One whole call of [loadData], no other handler running in between. *)
Definition loadData (env : Net.Env) : M State unit :=
  loadData_begin ;;
  loadData_resume env.

(** *** [magToColor], lines 122-130 *)

Definition magToColor (mag : option JS.number) : string :=
  match mag with
  | None => "#9aa0a6"
  | Some mag =>
      if (mag >= JS.of_N 7)%js then "#7f0000"
      else if (mag >= JS.of_N 6)%js then "#b30000"
      else if (mag >= JS.of_N 5)%js then "#d7301f"
      else if (mag >= JS.of_N 4)%js then "#ef6548"
      else if (mag >= JS.of_N 2)%js then "#fc8d59"
      else "#fdbb84"
  end.

(** *** [filtered], lines 56-58 *)

Definition filtered (features : list Feed.EarthquakeFeature) (minMag : JS.number)
  : list Feed.EarthquakeFeature :=
  List.filter
    (fun f => (Feed.mag (Feed.properties f) ?? JS.NegInf >= minMag)%js)
    features.

(** *** [MagnitudeLegend], lines 101-120 *)

Record LegendRow : Type := {
  key : N;
  swatch : string;     (* style.backgroundColor *)
  label : string
}.

Definition stops : list N := [0; 2; 4; 5; 6; 7]%N.

(** The callback of [stops.map], lines 107-116. *)
Definition legend_row (m : N) (idx : nat) : LegendRow :=
  let next := nth_error stops (idx + 1) in
  let label :=
    match next with
    | Some n =>
        if JS.truthy_N n
        then JS.N_toString m ++ "–" ++ JS.N_toString n
        else JS.N_toString m ++ "+"
    | None => JS.N_toString m ++ "+"
    end in
  {| key := m;
     swatch := magToColor (Some (JS.of_N m + JS.Num 0.01)%js);
     label := label |}.

(** [xs.map((x, idx) => f x idx)], indices counted from [i]. *)
Fixpoint map_index {A B : Type} (f : A -> nat -> B) (i : nat) (xs : list A) : list B :=
  match xs with
  | [] => []
  | x :: xs' => f x i :: map_index f (S i) xs'
  end.

Definition MagnitudeLegend : list LegendRow :=
  map_index legend_row 0 stops.

(** *** The handlers of [App]: lines 50-54, 73 and 84 *)

(** What a handler asks of the platform. *)
Inductive Command : Type :=
| Fetch (url : string) (cache : string)     (* fetch(url, { cache }) *)
| SetInterval (ms : N)                      (* setInterval(loadData, ms) *)
| ClearInterval.                            (* clearInterval(id) *)

Inductive Event : Type :=
| Mount                          (* the effect of line 50 runs *)
| IntervalTick                   (* the timer of line 52 fires *)
| RetryClick                     (* onClick of the Retry button *)
| MinMagChange (value : string)  (* onChange of the range input *)
| Settled (env : Net.Env)        (* the awaited fetch of a pending loadData settles *)
| Unmount.                       (* the cleanup of line 53 runs *)

(** A call of [loadData] up to its first [await]: the two writes, then the
    request. *)
Definition loadData_call (s : State) : State * list Command :=
  (exec loadData_begin s, [Fetch Feed.FEED_URL "no-store"]).

Definition REFRESH_MS : N := 5 * 60 * 1000.

Section Handlers.

(** [parseFloat], the platform's parser of the control's value. *)
Variable parseFloat : string -> JS.number.

Definition onChange (value : string) : M State unit :=
  setMinMag (parseFloat value).

Definition handle (ev : Event) (s : State) : State * list Command :=
  match ev with
  | Mount =>
      let (s', cmds) := loadData_call s in
      (s', (cmds ++ [SetInterval REFRESH_MS])%list)
  | IntervalTick => loadData_call s
  | RetryClick => loadData_call s
  | MinMagChange value => (exec (onChange value) s, [])
  | Settled env => (exec (loadData_resume env) s, [])
  | Unmount => (s, [ClearInterval])
  end.

End Handlers.

End App.

(* ===================================================================== *)
(** ** [MapView.tsx] *)
(* ===================================================================== *)

Module MapView.

(** The props of one [CircleMarker], lines 33-37. *)
Record Marker : Type := {
  key : string;
  center : JS.number * JS.number;     (* [lat, lon] *)
  radius : JS.number;
  color : string;
  fillColor : string
}.

(** The local [radius] of line 31, as a function of [mag]. *)
Definition radiusFor (mag : option JS.number) : JS.number :=
  JS.Math_max (JS.of_N 3) ((mag ?? JS.of_N 0) * JS.of_N 2 + JS.of_N 3)%js.

(** The callback of [markers.map], lines 27-37. *)
Definition marker (f : Feed.EarthquakeFeature) : Marker :=
  let '(lon, lat, depth) := Feed.coordinates (Feed.geometry f) in
  let mag := Feed.mag (Feed.properties f) in
  let color := App.magToColor mag in
  {| key := Feed.id f;
     center := (lat, lon);
     radius := radiusFor mag;
     color := color;
     fillColor := color |}.

Definition MapView (features : list Feed.EarthquakeFeature) : list Marker :=
  List.map marker features.

End MapView.

(* ===================================================================== *)
(** ** The status block of the control panel, [App.tsx] lines 79-89 *)
(* ===================================================================== *)

Module Panel.

(** What the third expression of the block leaves as a child:
    nothing ([null] or [false]); the falsy number [lastUpdated] itself, which
    [&&] returns and React prints as text; or the paragraph
    [Last updated: ...] built from the number. *)
Inductive Slot : Type :=
| Nothing
| FalsyNumber (n : JS.number)
| LastUpdated (ms : JS.number).

Record Meta : Type := {
  badge : bool;             (* the Loading badge, line 80 *)
  alert : option string;    (* the error text beside the Retry button, lines 81-86 *)
  timestamp : Slot          (* lines 87-89 *)
}.

(** [error && (...)]: an absent and an empty message both show nothing. *)
Definition alert_of (error : option string) : option string :=
  match error with
  | Some msg => if JS.truthy_string msg then Some msg else None
  | None => None
  end.

(** [lastUpdated && !loading && !error && (...)]. *)
Definition timestamp_of (s : App.State) : Slot :=
  match App.lastUpdated s with
  | None => Nothing
  | Some n =>
      if JS.truthy n then
        if negb (App.loading s) then
          match alert_of (App.error s) with
          | None => LastUpdated n
          | Some _ => Nothing
          end
        else Nothing
      else FalsyNumber n
  end.

Definition meta (s : App.State) : Meta :=
  {| badge := App.loading s;
     alert := alert_of (App.error s);
     timestamp := timestamp_of s |}.

End Panel.

(* ===================================================================== *)
(** ** The binary64 arithmetic of the kernel, for comparison *)
(* ===================================================================== *)

Module Binary64.

Import PrimFloat.

(** The number a kernel float denotes. *)
Definition of_float (f : float) : JS.number :=
  match FloatOps.Prim2SF f with
  | SpecFloat.S754_zero _ => JS.Num 0
  | SpecFloat.S754_infinity false => JS.PosInf
  | SpecFloat.S754_infinity true => JS.NegInf
  | SpecFloat.S754_nan => JS.NaN
  | SpecFloat.S754_finite s m e =>
      JS.Num (Qred ((if s then -1 else 1) * inject_Z (Zpos m) * JS.pow2 e))
  end.

(** The same value: finite numbers as rationals. *)
Definition same (a b : JS.number) : bool :=
  match a, b with
  | JS.Num x, JS.Num y => Qeq_bool x y
  | JS.PosInf, JS.PosInf | JS.NegInf, JS.NegInf | JS.NaN, JS.NaN => true
  | _, _ => false
  end.

(** Line 31 of [MapView.tsx] on kernel floats. *)
Definition radius (mag : float) : float :=
  let x := (mag * 2 + 3)%float in
  if is_nan x then nan else if (3 <=? x)%float then x else 3%float.

(** Doubles of every kind: zero, smallest subnormal, smallest normal, small,
    ordinary, large, largest, infinite, [NaN], and two opposites. *)
Definition samples : list float :=
  [ 0; 0x0.0000000000001p-1022; 0x1p-1022; 0x1p-60; 0x1.8p-53;
    0x1.999999999999ap-4; 0x1.11eb851eb851fp+0; 3; 0x1.4cccccccccccdp+2;
    0x1.7e43c8800759cp+996; 0x1p+1023; 0x1.fffffffffffffp+1023;
    infinity; nan; -0x1.11eb851eb851fp+0; neg_infinity ]%float.

(** Magnitudes: the samples, the doubles around one half-spacing of 3, and
    ordinary magnitudes of either sign. *)
Definition magnitudes : list float :=
  (samples ++
   [ 0x0.012688b70e62bp-1022; 0x1p-53; 0x1p-52; 0x1.47ae147ae147bp-7;
     0x1.e666666666666p+0; 2; 0x1.2p+2; 0x1.c0a3d70a3d70ap+2;
     0x1.d6f3454800000p+26; -0x1p-60; -3; -0x1.4cccccccccccdp+2;
     -0x1p+1023 ]%float)%list.

(** [+] and [*] of the model agree with the kernel on [x] and [y]. *)
Definition agree_on (x y : float) : bool :=
  same (JS.add (of_float x) (of_float y)) (of_float (x + y)%float) &&
  same (JS.mul (of_float x) (of_float y)) (of_float (x * y)%float).

(** The radius of the model agrees with the kernel on [mag]. *)
Definition radius_agrees_on (mag : float) : bool :=
  same (MapView.radiusFor (Some (of_float mag))) (of_float (radius mag)).

(** The double the literal [0.01] denotes. *)
Definition lit_0_01 : float := 0x1.47ae147ae147bp-7%float.

(** [m + 0.01] of line 112 on kernel floats, for the six stops. *)
Definition legend_sums : list float :=
  List.map (fun m => (m + lit_0_01)%float) [ 0; 2; 4; 5; 6; 7 ]%float.

(** The double nearest to 1.07, and the double 5.140000000000001. *)
Definition mag_1_07 : float := 0x1.11eb851eb851fp+0%float.
Definition radius_1_07 : float := 0x1.48f5c28f5c290p+2%float.

End Binary64.

(* ===================================================================== *)
(** ** Vocabulary of the properties *)
(* ===================================================================== *)

(** [Subseq l k]: [l] is [k] with some elements left out, order kept. *)
Inductive Subseq {A : Type} : list A -> list A -> Prop :=
| Subseq_nil : Subseq [] []
| Subseq_keep x l k : Subseq l k -> Subseq (x :: l) (x :: k)
| Subseq_drop x l k : Subseq l k -> Subseq l (x :: k).

(** The test of line 57 on one feature. *)
Definition meets (minMag : JS.number) (f : Feed.EarthquakeFeature) : bool :=
  (Feed.mag (Feed.properties f) ?? JS.NegInf >= minMag)%js.

(** The radius as the specification writes it, over the reals:
    [max(3, (m ?? 0) * 2 + 3)]. *)
Definition radius_exact (m : option Q) : Q :=
  Qmax 3 (JS.nullish m 0 * 2 + 3).

(** The radius of the magnitude [m] is a finite number of that value. *)
Definition radius_is_exact (m : option Q) : Prop :=
  exists r, MapView.radiusFor (option_map JS.Num m) = JS.Num r /\
            (r == radius_exact m)%Q.

(** The events that call [loadData]: the mount effect, the timer, Retry. *)
Definition starts_fetch (ev : App.Event) : bool :=
  match ev with
  | App.Mount | App.IntervalTick | App.RetryClick => true
  | _ => false
  end.

(** The text the [catch] clause stores for a thrown value. *)
Definition description (e : Net.Thrown) : string :=
  match e with
  | Net.ThrownError m => m
  | Net.ThrownOther => "Unknown error"
  end.

(** [Fails env e]: what the platform answered makes the [try] block of
    [loadData] throw [e].  The four ways: no response; a response whose
    status is not in 200-299; a body that [res.json()] rejects; a body that
    parses to [null]. *)
Inductive Fails : Net.Env -> Net.Thrown -> Prop :=
| Fails_no_response e now :
    Fails {| Net.fetched := Net.FetchRejects e; Net.now := now |} e
| Fails_status res now :
    Net.ok res = false ->
    Fails {| Net.fetched := Net.FetchResolves res; Net.now := now |}
          (Net.ThrownError ("HTTP " ++ JS.N_toString (Net.status res)))
| Fails_body res e now :
    Net.ok res = true ->
    Net.body res = Net.BodyRejects e ->
    Fails {| Net.fetched := Net.FetchResolves res; Net.now := now |} e
| Fails_null res msg now :
    Net.ok res = true ->
    Net.body res = Net.BodyResolves (Net.JsonNull msg) ->
    Fails {| Net.fetched := Net.FetchResolves res; Net.now := now |}
          (Net.ThrownError msg).

(** [Delivers env r]: a response with a success status whose body parses to
    the object [r]. *)
Definition Delivers (env : Net.Env) (r : Feed.EarthquakeResponse) : Prop :=
  exists res,
    Net.fetched env = Net.FetchResolves res /\
    Net.ok res = true /\
    Net.body res = Net.BodyResolves (Net.JsonObject r).

(** The component driven by a sequence of events: the state it ends in and
    the commands it has issued, in order. *)
Fixpoint run (parseFloat : string -> JS.number) (evs : list App.Event) (s : App.State)
  : App.State * list App.Command :=
  match evs with
  | [] => (s, [])
  | ev :: evs' =>
      let (s1, c1) := App.handle parseFloat ev s in
      let (s2, c2) := run parseFloat evs' s1 in
      (s2, (c1 ++ c2)%list)
  end.

(** What every handler keeps: no error message while the loading flag is set,
    and no events without a timestamp. *)
Definition consistent (s : App.State) : Prop :=
  (App.loading s = true -> App.error s = None) /\
  (App.lastUpdated s = None -> App.features s = []).

(** Two states that differ at most in the threshold. *)
Definition same_data (s s' : App.State) : Prop :=
  App.features s = App.features s' /\
  App.loading s = App.loading s' /\
  App.error s = App.error s' /\
  App.lastUpdated s = App.lastUpdated s'.

(** The threshold a sequence of events leaves, from the threshold [m]. *)
Definition last_threshold (parseFloat : string -> JS.number)
    (evs : list App.Event) (m : JS.number) : JS.number :=
  fold_left
    (fun m ev => match ev with App.MinMagChange v => parseFloat v | _ => m end)
    evs m.

Definition is_fetch (c : App.Command) : bool :=
  match c with
  | App.Fetch _ _ => true
  | _ => false
  end.

Definition is_threshold_change (ev : App.Event) : bool :=
  match ev with
  | App.MinMagChange _ => true
  | _ => false
  end.

(** *** The Feed Client contract as the specification words it (section 4.2
    and section 7), for comparison with [loadData] *)

Module Contract.

Inductive FeedError : Type :=
| NetworkError
| HttpError (status : N)
| ParseError.

(** The expected schema: the required top-level fields are present. *)
Definition in_schema (r : Feed.EarthquakeResponse) : bool :=
  match Feed.features r, JS.optional_chain (Feed.metadata r) Feed.generated with
  | Some _, Some _ => true
  | _, _ => false
  end.

(** The error the contract assigns to an answer of the platform, [None] when
    it promises a snapshot. *)
Definition fetchSnapshot_error (env : Net.Env) : option FeedError :=
  match Net.fetched env with
  | Net.FetchRejects _ => Some NetworkError
  | Net.FetchResolves res =>
      if negb (Net.ok res) then Some (HttpError (Net.status res))
      else
        match Net.body res with
        | Net.BodyRejects _ => Some ParseError
        | Net.BodyResolves (Net.JsonNull _) => Some ParseError
        | Net.BodyResolves (Net.JsonObject r) =>
            if in_schema r then None else Some ParseError
        end
  end.

(** The contract at one answer: [loadData] fails exactly when the contract
    assigns an error. *)
Definition holds_at (env : Net.Env) (s : App.State) : Prop :=
  (exists e, Effects.outcome (App.loadData_try env) s = Effects.Threw e) <->
  fetchSnapshot_error env <> None.

End Contract.

(** *** Sample data *)

Module Sample.

Definition quake (id : string) (mag : option JS.number) : Feed.EarthquakeFeature :=
  {| Feed.id := id;
     Feed.properties :=
       {| Feed.mag := mag; Feed.place := None;
          Feed.time := JS.of_N 0; Feed.url := "" |};
     Feed.geometry :=
       {| Feed.coordinates := (JS.of_N 0, JS.of_N 0, JS.of_N 0) |} |}.

Definition a : Feed.EarthquakeFeature := quake "a" (Some (JS.Num 5.2)).
Definition b : Feed.EarthquakeFeature := quake "b" None.
Definition c : Feed.EarthquakeFeature := quake "c" (Some (JS.Num 1.9)).
Definition z : Feed.EarthquakeFeature := quake "z" (Some (JS.of_N 0)).

(** A state holding data from an earlier successful fetch. *)
Definition stale : App.State :=
  {| App.features := [a; b; c];
     App.minMag := JS.of_N 2;
     App.loading := false;
     App.error := None;
     App.lastUpdated := Some (JS.of_N 1700000000000) |}.

(** A state that shows the error of a failed fetch. *)
Definition failed : App.State :=
  {| App.features := [a];
     App.minMag := JS.of_N 0;
     App.loading := false;
     App.error := Some "HTTP 500";
     App.lastUpdated := None |}.

Definition respond (status : N) (body : Net.Body) : Net.Env :=
  {| Net.fetched := Net.FetchResolves {| Net.status := status; Net.body := body |};
     Net.now := JS.of_N 1700000300000 |}.

(** Status 500. *)
Definition http_500 : Net.Env :=
  respond 500 (Net.BodyRejects (Net.ThrownError "Unexpected token < in JSON")).

(** Status 200 with body [{}]. *)
Definition empty_object : Net.Env :=
  respond 200 (Net.BodyResolves (Net.JsonObject
    {| Feed.metadata := None; Feed.features := None |})).

(** Status 200 with body [{"metadata":{"generated":1700000200000},"features":[]}]. *)
Definition no_quakes : Net.Env :=
  respond 200 (Net.BodyResolves (Net.JsonObject
    {| Feed.metadata := Some {| Feed.generated := Some (JS.of_N 1700000200000) |};
       Feed.features := Some [] |})).

(** Status 200 with three events and [generated: 0]. *)
Definition quakes : Net.Env :=
  respond 200 (Net.BodyResolves (Net.JsonObject
    {| Feed.metadata := Some {| Feed.generated := Some (JS.of_N 0) |};
       Feed.features := Some [a; b; c] |})).

End Sample.

(* ===================================================================== *)
(** ** Facts about the comparison of numbers *)
(* ===================================================================== *)

Section Comparison.

Local Open Scope js_scope.

Lemma of_N_le (a b : N) : (a <= b)%N -> (inject_Z (Z.of_N a) <= inject_Z (Z.of_N b))%Q.
Proof.
  intros H. rewrite <- Zle_Qle. lia.
Qed.

(** Below [a], hence not at or above any [b] from [a] on. *)
Lemma lt_not_ge (m : JS.number) (a b : N) :
  (a <= b)%N -> (m < JS.of_N a) = true -> (m >= JS.of_N b) = false.
Proof.
  intros Hab Hlt. destruct m as [q | | |]; simpl in *; try reflexivity; try discriminate.
  apply negb_true_iff in Hlt.
  destruct (Qle_bool (inject_Z (Z.of_N b)) q) eqn:Hb; [|reflexivity].
  apply Qle_bool_iff in Hb.
  assert (Ha : Qle_bool (inject_Z (Z.of_N a)) q = true).
  { apply Qle_bool_iff. eapply Qle_trans; [apply of_N_le; exact Hab | exact Hb]. }
  congruence.
Qed.

(** [<] and [>=] never hold together. *)
Lemma lt_ge_exclusive (m k : JS.number) : (m < k) = true -> (m >= k) = false.
Proof.
  destruct m, k; simpl; try reflexivity; try discriminate.
  intros H. now apply negb_true_iff in H.
Qed.

Example neg_infinity_below_0 : (JS.NegInf >= JS.of_N 0) = false.
Proof. reflexivity. Qed.

Example N_toString_500 : JS.N_toString 500 = "500".
Proof. reflexivity. Qed.

Lemma ge_trans (a b c : JS.number) :
  (a >= b) = true -> (b >= c) = true -> (a >= c) = true.
Proof.
  destruct a as [x| | |], b as [y| | |], c as [z| | |]; simpl;
    try reflexivity; try discriminate.
  intros H1 H2. apply Qle_bool_iff in H1. apply Qle_bool_iff in H2.
  apply Qle_bool_iff. eapply Qle_trans; eassumption.
Qed.

(** Two numbers other than [NaN] are comparable. *)
Lemma ge_total (a b : JS.number) :
  a <> JS.NaN -> b <> JS.NaN -> (a >= b) = true \/ (b >= a) = true.
Proof.
  destruct a as [x| | |], b as [y| | |]; simpl; intros Ha Hb; auto; try congruence.
  destruct (Qle_bool y x) eqn:E; [auto|]. right.
  apply Qle_bool_iff. apply Qlt_le_weak, Qnot_le_lt.
  intros H. apply Qle_bool_iff in H. congruence.
Qed.

Lemma ge_not_NaN (a b : JS.number) : (a >= b) = true -> a <> JS.NaN /\ b <> JS.NaN.
Proof. destruct a, b; simpl; intros H; split; congruence. Qed.

End Comparison.

(* ===================================================================== *)
(** ** Facts about rounding *)
(* ===================================================================== *)

Section Rounding.

Local Open Scope Q_scope.

Lemma pow2_pos z : 0 < JS.pow2 z.
Proof. apply Qpower_0_lt. reflexivity. Qed.

Lemma pow2_add a b : JS.pow2 (a + b) == JS.pow2 a * JS.pow2 b.
Proof. apply Qpower_plus. discriminate. Qed.

Lemma pow2_sub a b : JS.pow2 (a - b) == JS.pow2 a / JS.pow2 b.
Proof. apply Qpower_minus. discriminate. Qed.

Lemma pow2_le a b : (a <= b)%Z -> JS.pow2 a <= JS.pow2 b.
Proof. intros H. apply Qpower_le_compat_l; [exact H | discriminate]. Qed.

Lemma pow2_lt a b : (a < b)%Z -> JS.pow2 a < JS.pow2 b.
Proof. intros H. apply Qpower_lt_compat_l; [exact H | reflexivity]. Qed.

Lemma pow2_Z a : (0 <= a)%Z -> JS.pow2 a == inject_Z (2 ^ a).
Proof. intros H. unfold JS.pow2. now rewrite Zpower_Qpower. Qed.

Lemma pow2_succ a : JS.pow2 (a + 1) == 2 * JS.pow2 a.
Proof. rewrite pow2_add. change (JS.pow2 1) with 2. ring. Qed.

Lemma flog2_spec q : 0 < q -> JS.pow2 (JS.flog2 q) <= q /\ q < JS.pow2 (JS.flog2 q + 1).
Proof.
  intros Hq. unfold JS.flog2.
  destruct q as [n d]. cbn [Qnum Qden].
  assert (Hn : (0 < n)%Z).
  { unfold Qlt in Hq. simpl in Hq. lia. }
  set (a := Z.log2 n). set (b := Z.log2 (Z.pos d)).
  destruct (Z.log2_spec n Hn) as [Ha1 Ha2].
  destruct (Z.log2_spec (Z.pos d) eq_refl) as [Hb1 Hb2].
  fold a in Ha1, Ha2. fold b in Hb1, Hb2.
  assert (Ha0 : (0 <= a)%Z) by apply Z.log2_nonneg.
  assert (Hb0 : (0 <= b)%Z) by apply Z.log2_nonneg.
  assert (QA1 : JS.pow2 a <= inject_Z n).
  { rewrite pow2_Z by assumption. now rewrite <- Zle_Qle. }
  assert (QA2 : inject_Z n < 2 * JS.pow2 a).
  { rewrite <- pow2_succ, pow2_Z by lia. now rewrite <- Zlt_Qlt. }
  assert (QB1 : JS.pow2 b <= inject_Z (Z.pos d)).
  { rewrite pow2_Z by assumption. now rewrite <- Zle_Qle. }
  assert (QB2 : inject_Z (Z.pos d) < 2 * JS.pow2 b).
  { rewrite <- pow2_succ, pow2_Z by lia. now rewrite <- Zlt_Qlt. }
  assert (Hqd : n # d == inject_Z n / inject_Z (Z.pos d)).
  { apply Qmake_Qdiv. }
  assert (Hd : 0 < inject_Z (Z.pos d)) by reflexivity.
  pose proof (pow2_pos a) as Pa. pose proof (pow2_pos b) as Pb.
  assert (Hmul : (n # d) * inject_Z (Z.pos d) == inject_Z n).
  { rewrite Hqd. field. intros E. rewrite E in Hd. discriminate. }
  destruct (Qle_bool (JS.pow2 (a - b)) (n # d)) eqn:Hg.
  - apply Qle_bool_iff in Hg. split; [exact Hg|].
    rewrite pow2_succ, pow2_sub.
    assert (E : 2 * (JS.pow2 a / JS.pow2 b) == (2 * JS.pow2 a) / JS.pow2 b).
    { field. intros E3. rewrite E3 in Pb. discriminate. }
    rewrite E. apply Qlt_shift_div_l; [exact Pb|].
    apply Qle_lt_trans with ((n # d) * inject_Z (Z.pos d)).
    + apply Qmult_le_l; [exact Hq | exact QB1].
    + rewrite Hmul. lra.
  - assert (Hlt : n # d < JS.pow2 (a - b)).
    { apply Qnot_le_lt. intros H. apply Qle_bool_iff in H. congruence. }
    split.
    + rewrite Hqd. apply Qle_shift_div_l; [exact Hd|].
      assert (E : JS.pow2 (a - b - 1) * 2 == JS.pow2 a / JS.pow2 b).
      { rewrite <- pow2_sub. replace (a - b)%Z with ((a - b - 1) + 1)%Z at 2 by lia.
        rewrite pow2_succ. ring. }
      pose proof (pow2_pos (a - b - 1)) as Pg.
      assert (E2 : JS.pow2 (a - b - 1) * 2 * JS.pow2 b == JS.pow2 a).
      { rewrite E. field. intros E3. rewrite E3 in Pb. discriminate. }
      nra.
    + replace (a - b - 1 + 1)%Z with (a - b)%Z by lia. exact Hlt.
Qed.

Lemma flog2_mono q1 q2 : 0 < q1 -> q1 <= q2 -> (JS.flog2 q1 <= JS.flog2 q2)%Z.
Proof.
  intros H1 H12.
  assert (H2 : 0 < q2) by (eapply Qlt_le_trans; eassumption).
  destruct (flog2_spec q1 H1) as [L1 _]. destruct (flog2_spec q2 H2) as [_ U2].
  destruct (Z_lt_le_dec (JS.flog2 q2) (JS.flog2 q1)) as [Hlt|Hle]; [|exact Hle].
  exfalso. assert (JS.pow2 (JS.flog2 q2 + 1) <= JS.pow2 (JS.flog2 q1)) by (apply pow2_le; lia).
  lra.
Qed.

Lemma rne_floor z : (Qfloor z <= JS.rne z <= Qfloor z + 1)%Z.
Proof.
  unfold JS.rne. destruct (Qcompare _ _); [destruct (Z.even _)| |]; lia.
Qed.

Lemma rne_ge z n : inject_Z n <= z -> (n <= JS.rne z)%Z.
Proof.
  intros H. apply Qfloor_resp_le in H. rewrite Qfloor_Z in H.
  pose proof (rne_floor z). lia.
Qed.

Lemma rne_le z n : z <= inject_Z n -> (JS.rne z <= n)%Z.
Proof.
  intros H. pose proof (rne_floor z) as [_ Hr].
  pose proof (Qfloor_resp_le _ _ H) as Hf. rewrite Qfloor_Z in Hf.
  destruct (Z.eq_dec (Qfloor z) n) as [E|E]; [|lia].
  unfold JS.rne. rewrite E.
  destruct (Qcompare_spec (z - inject_Z n) (1 # 2)) as [C|C|C]; try lia; lra.
Qed.

Lemma rne_mono z1 z2 : z1 <= z2 -> (JS.rne z1 <= JS.rne z2)%Z.
Proof.
  intros H. pose proof (Qfloor_resp_le _ _ H) as Hf.
  pose proof (rne_floor z1) as [_ U1]. pose proof (rne_floor z2) as [L2 _].
  destruct (Z.eq_dec (Qfloor z1) (Qfloor z2)) as [E|E]; [|lia].
  unfold JS.rne. rewrite E.
  destruct (Qcompare_spec (z1 - inject_Z (Qfloor z2)) (1 # 2)) as [C1|C1|C1];
  destruct (Qcompare_spec (z2 - inject_Z (Qfloor z2)) (1 # 2)) as [C2|C2|C2];
    try (destruct (Z.even (Qfloor z2))); try lia; lra.
Qed.

Lemma rne_Z n : JS.rne (inject_Z n) = n.
Proof.
  unfold JS.rne. rewrite Qfloor_Z.
  destruct (Qcompare_spec (inject_Z n - inject_Z n) (1 # 2)) as [C|C|C];
    [exfalso; lra | reflexivity | exfalso; lra].
Qed.

Lemma rne_error z : - (1 # 2) <= inject_Z (JS.rne z) - z <= 1 # 2.
Proof.
  pose proof (Qfloor_le z) as L. pose proof (Qlt_floor z) as U.
  rewrite inject_Z_plus in U. change (inject_Z 1) with 1 in U.
  unfold JS.rne.
  destruct (Qcompare_spec (z - inject_Z (Qfloor z)) (1 # 2)) as [C|C|C];
    [destruct (Z.even _)| |];
    rewrite ?inject_Z_plus; change (inject_Z 1) with 1; split; lra.
Qed.

Lemma exponent_mono q1 q2 : 0 < q1 -> q1 <= q2 -> (JS.exponent q1 <= JS.exponent q2)%Z.
Proof. intros H1 H2. unfold JS.exponent. pose proof (flog2_mono q1 q2 H1 H2). lia. Qed.

Lemma ulp_pos q : 0 < JS.ulp q.
Proof. apply pow2_pos. Qed.

Lemma div_pow2 (q : Q) (a b : Z) : q <= JS.pow2 a -> q / JS.pow2 b <= JS.pow2 (a - b).
Proof.
  intros H. rewrite pow2_sub. unfold Qdiv.
  apply Qmult_le_compat_r; [exact H|].
  apply Qlt_le_weak, Qinv_lt_0_compat, pow2_pos.
Qed.

Lemma div_pow2_ge (q : Q) (a b : Z) : JS.pow2 a <= q -> JS.pow2 (a - b) <= q / JS.pow2 b.
Proof.
  intros H. rewrite pow2_sub. unfold Qdiv.
  apply Qmult_le_compat_r; [exact H|].
  apply Qlt_le_weak, Qinv_lt_0_compat, pow2_pos.
Qed.

(** Below the next power of two. *)
Lemma nearest_upper q : 0 < q -> JS.nearest q <= JS.pow2 (JS.exponent q + 1).
Proof.
  intros Hq. unfold JS.nearest, JS.ulp.
  destruct (flog2_spec q Hq) as [_ U].
  assert (Hu : q <= JS.pow2 (JS.exponent q + 1)).
  { apply Qlt_le_weak. eapply Qlt_le_trans; [exact U|]. apply pow2_le.
    unfold JS.exponent. lia. }
  pose proof (div_pow2 q _ (JS.exponent q - 52) Hu) as Hd.
  replace (JS.exponent q + 1 - (JS.exponent q - 52))%Z with 53%Z in Hd by lia.
  rewrite (pow2_Z 53) in Hd by lia.
  apply rne_le in Hd.
  replace (JS.exponent q + 1)%Z with (53 + (JS.exponent q - 52))%Z by lia.
  rewrite pow2_add, (pow2_Z 53) by lia.
  apply Qmult_le_compat_r; [|apply Qlt_le_weak, pow2_pos].
  now rewrite <- Zle_Qle.
Qed.

(** Normal numbers stay at or above their power of two. *)
Lemma nearest_lower q : 0 < q -> (-1022 < JS.exponent q)%Z -> JS.pow2 (JS.exponent q) <= JS.nearest q.
Proof.
  intros Hq He. unfold JS.nearest, JS.ulp.
  destruct (flog2_spec q Hq) as [L _].
  assert (Hf : JS.exponent q = JS.flog2 q) by (unfold JS.exponent in *; lia).
  rewrite <- Hf in L.
  pose proof (div_pow2_ge q _ (JS.exponent q - 52) L) as Hd.
  replace (JS.exponent q - (JS.exponent q - 52))%Z with 52%Z in Hd by lia.
  rewrite (pow2_Z 52) in Hd by lia.
  apply rne_ge in Hd.
  replace (JS.exponent q)%Z with (52 + (JS.exponent q - 52))%Z at 1 by lia.
  rewrite pow2_add, (pow2_Z 52) by lia.
  apply Qmult_le_compat_r; [|apply Qlt_le_weak, pow2_pos].
  now rewrite <- Zle_Qle.
Qed.

Lemma nearest_mono q1 q2 : 0 < q1 -> q1 <= q2 -> JS.nearest q1 <= JS.nearest q2.
Proof.
  intros H1 H12.
  assert (H2 : 0 < q2) by (eapply Qlt_le_trans; eassumption).
  pose proof (exponent_mono q1 q2 H1 H12) as He.
  destruct (Z.eq_dec (JS.exponent q1) (JS.exponent q2)) as [E|E].
  - unfold JS.nearest, JS.ulp. rewrite E.
    apply Qmult_le_compat_r; [|apply Qlt_le_weak, pow2_pos].
    rewrite <- Zle_Qle. apply rne_mono.
    apply Qmult_le_compat_r; [exact H12|].
    apply Qlt_le_weak, Qinv_lt_0_compat, pow2_pos.
  - apply Qle_trans with (JS.pow2 (JS.exponent q1 + 1)); [now apply nearest_upper|].
    apply Qle_trans with (JS.pow2 (JS.exponent q2)); [apply pow2_le; lia|].
    apply nearest_lower; [exact H2|]. unfold JS.exponent in *. lia.
Qed.

Lemma nearest_nonneg q : 0 < q -> 0 <= JS.nearest q.
Proof.
  intros Hq. unfold JS.nearest.
  apply Qmult_le_0_compat; [|apply Qlt_le_weak, ulp_pos].
  change 0 with (inject_Z 0). rewrite <- Zle_Qle. apply rne_ge.
  change (inject_Z 0) with 0. unfold Qdiv.
  apply Qmult_le_0_compat; [now apply Qlt_le_weak|].
  apply Qlt_le_weak, Qinv_lt_0_compat, ulp_pos.
Qed.

Lemma round_pos_mono q1 q2 : 0 < q1 -> q1 <= q2 -> JS.ge (JS.round_pos q2) (JS.round_pos q1) = true.
Proof.
  intros H1 H12. pose proof (nearest_mono q1 q2 H1 H12) as Hn. unfold JS.round_pos.
  destruct (Qle_bool (JS.pow2 1024) (JS.nearest q2)) eqn:O2; [destruct (Qle_bool _ (JS.nearest q1)); reflexivity|].
  destruct (Qle_bool (JS.pow2 1024) (JS.nearest q1)) eqn:O1.
  - apply Qle_bool_iff in O1. exfalso.
    assert (JS.pow2 1024 <= JS.nearest q2) by lra. apply Qle_bool_iff in H. congruence.
  - cbn [JS.ge]. apply Qle_bool_iff. now rewrite !Qred_correct.
Qed.

Lemma round_pos_nonneg q : 0 < q -> JS.ge (JS.round_pos q) (JS.Num 0) = true.
Proof.
  intros H. unfold JS.round_pos. destruct (Qle_bool _ _); [reflexivity|].
  cbn [JS.ge]. apply Qle_bool_iff. rewrite Qred_correct. now apply nearest_nonneg.
Qed.

Lemma ge_neg a b : JS.ge a b = true -> JS.ge (JS.neg b) (JS.neg a) = true.
Proof.
  destruct a, b; simpl; try reflexivity; try discriminate.
  intros H. apply Qle_bool_iff in H. apply Qle_bool_iff. lra.
Qed.

Lemma round_mono q1 q2 : q1 <= q2 -> JS.ge (JS.round q2) (JS.round q1) = true.
Proof.
  intros H. unfold JS.round.
  destruct (Qcompare_spec q1 0) as [C1|C1|C1]; destruct (Qcompare_spec q2 0) as [C2|C2|C2];
    try (exfalso; lra).
  - reflexivity.
  - now apply round_pos_nonneg.
  - change (JS.Num 0) with (JS.neg (JS.Num 0)). apply ge_neg. apply round_pos_nonneg. lra.
  - apply ge_neg. apply round_pos_mono; lra.
  - apply ge_trans with (JS.Num 0); [now apply round_pos_nonneg|].
    change (JS.Num 0) with (JS.neg (JS.Num 0)). apply ge_neg. apply round_pos_nonneg. lra.
  - now apply round_pos_mono.
Qed.

Lemma round_not_NaN q : JS.round q <> JS.NaN.
Proof.
  unfold JS.round, JS.round_pos. destruct (Qcompare q 0); try discriminate;
    destruct (Qle_bool _ _); discriminate.
Qed.


Lemma nearest_error q :
  0 < q ->
  - (q * JS.pow2 (-53) + JS.pow2 (-1075)) <= JS.nearest q - q /\
  JS.nearest q - q <= q * JS.pow2 (-53) + JS.pow2 (-1075).
Proof.
  intros Hq. pose proof (ulp_pos q) as Pu.
  pose proof (rne_error (q / JS.ulp q)) as [L U].
  assert (E : JS.nearest q - q == (inject_Z (JS.rne (q / JS.ulp q)) - q / JS.ulp q) * JS.ulp q).
  { unfold JS.nearest. field. intros E3. rewrite E3 in Pu. discriminate. }
  assert (Hu : JS.ulp q == 2 * JS.pow2 (JS.exponent q - 53)).
  { unfold JS.ulp. replace (JS.exponent q - 52)%Z with ((JS.exponent q - 53) + 1)%Z by lia.
    apply pow2_succ. }
  pose proof (pow2_pos (JS.exponent q - 53)) as Ph.
  assert (Hb : JS.pow2 (JS.exponent q - 53) <= q * JS.pow2 (-53) + JS.pow2 (-1075)).
  { pose proof (pow2_pos (-53)) as P53. pose proof (pow2_pos (-1075)) as P1075.
    destruct (flog2_spec q Hq) as [Lq _].
    destruct (Z.eq_dec (JS.exponent q) (JS.flog2 q)) as [Ee|Ee].
    - replace (JS.exponent q - 53)%Z with (JS.flog2 q + -53)%Z by lia.
      rewrite pow2_add. nra.
    - assert (Em : JS.exponent q = (-1022)%Z) by (unfold JS.exponent in *; lia).
      rewrite Em. change (-1022 - 53)%Z with (-1075)%Z. nra. }
  rewrite E. set (d := inject_Z (JS.rne (q / JS.ulp q)) - q / JS.ulp q) in *.
  split; nra.
Qed.

(** A rounded number is finite or an infinity. *)
Lemma round_cases q :
  (exists r, JS.round q = JS.Num r) \/ JS.round q = JS.PosInf \/ JS.round q = JS.NegInf.
Proof.
  unfold JS.round, JS.round_pos. destruct (Qcompare q 0).
  - left. now eexists.
  - destruct (Qle_bool _ _); cbn [JS.neg]; [auto | left; now eexists].
  - destruct (Qle_bool _ _); [auto | left; now eexists].
Qed.

(** What a positive rational rounds to, when it does not overflow. *)
Lemma round_finite q r : 0 < q -> JS.round q = JS.Num r -> r == JS.nearest q.
Proof.
  intros Hq. unfold JS.round.
  destruct (Qcompare_spec q 0) as [C|C|C]; try (exfalso; lra).
  unfold JS.round_pos. destruct (Qle_bool _ _); [discriminate|].
  intros H. assert (E : r = Qred (JS.nearest q)) by congruence.
  rewrite E. apply Qred_correct.
Qed.

(** On every pair of the sample doubles, [+] and [*] give the value the
    kernel's binary64 arithmetic gives. *)
Example add_mul_agree_with_binary64 :
  forallb (fun x => forallb (Binary64.agree_on x) Binary64.samples) Binary64.samples
  = true.
Proof. vm_compute. reflexivity. Qed.

(** On every sample magnitude the radius is the one line 31 gives on kernel
    floats. *)
Example radius_agrees_with_binary64 :
  forallb Binary64.radius_agrees_on Binary64.magnitudes = true.
Proof. vm_compute. reflexivity. Qed.

(** For each stop of the legend, [m + 0.01] is the double the kernel gives. *)
Example legend_sums_agree_with_binary64 :
  List.map (fun m => (JS.of_N m + JS.Num 0.01)%js) App.stops =
  List.map (fun x => Binary64.of_float x) Binary64.legend_sums.
Proof. vm_compute. reflexivity. Qed.

(** The magnitude 1.07: the radius is the double 5.140000000000001. *)
Example radius_of_1_07 :
  Binary64.same
    (MapView.radiusFor (Some (Binary64.of_float Binary64.mag_1_07)))
    (Binary64.of_float Binary64.radius_1_07) = true.
Proof. vm_compute. reflexivity. Qed.

End Rounding.

(* ===================================================================== *)
(** ** The running of [loadData] *)
(* ===================================================================== *)

Section LoadData.

Import Effects.

Lemma begin_state (s : App.State) :
  exec App.loadData_begin s =
  {| App.features := App.features s; App.minMag := App.minMag s;
     App.loading := true; App.error := None;
     App.lastUpdated := App.lastUpdated s |}.
Proof. reflexivity. Qed.

(** When the [try] block throws it has written nothing. *)
Lemma try_throws_clean (env : Net.Env) (s : App.State) (e : Net.Thrown) :
  Fails env e -> App.loadData_try env s = (Threw e, s).
Proof.
  intros H. destruct H as [e now | res now Hok | res e now Hok Hb | res msg now Hok Hb];
    unfold App.loadData_try, App.await_fetch, App.await_json, bind, throw, ret; simpl.
  - reflexivity.
  - rewrite Hok. reflexivity.
  - rewrite Hok, Hb. reflexivity.
  - rewrite Hok, Hb. reflexivity.
Qed.

(** On a parsed object the [try] block returns, after its two writes. *)
Lemma try_returns (env : Net.Env) (r : Feed.EarthquakeResponse) (s : App.State) :
  Delivers env r ->
  App.loadData_try env s =
  (Returned tt,
   {| App.features := JS.or_else (Feed.features r) [];
      App.minMag := App.minMag s;
      App.loading := App.loading s;
      App.error := App.error s;
      App.lastUpdated :=
        Some (JS.optional_chain (Feed.metadata r) Feed.generated ?? Net.now env)%js |}).
Proof.
  intros (res & Hf & Hok & Hb).
  unfold App.loadData_try, App.await_fetch, App.await_json, bind, throw, ret.
  rewrite Hf. simpl. rewrite Hok, Hb. reflexivity.
Qed.

(** Every answer of the platform is a failure or delivers an object. *)
Lemma fails_or_delivers (env : Net.Env) :
  (exists e, Fails env e) \/ (exists r, Delivers env r).
Proof.
  destruct env as [[e | res] now].
  - left. exists e. constructor.
  - destruct (Net.ok res) eqn:Hok.
    + destruct (Net.body res) as [e | [msg | r]] eqn:Hb.
      * left. exists e. apply Fails_body; assumption.
      * left. eexists. eapply Fails_null; eassumption.
      * right. exists r, res. auto.
    + left. eexists. apply Fails_status; assumption.
Qed.

End LoadData.

(* ===================================================================== *)
(** ** The magnitude mapper: colour and radius *)
(* ===================================================================== *)

Section Mapper.

Local Open Scope js_scope.

(** The colour of the band that starts at the stop [s] and ends below [e]. *)
Lemma band_color (m : JS.number) (s e : N) (c : string) :
  (s < e)%N ->
  (forall x, (x >= JS.of_N s) = true -> (x >= JS.of_N e) = false ->
             (forall k, (e <= k)%N -> (x >= JS.of_N k) = false) ->
             App.magToColor (Some x) = c) ->
  (m >= JS.of_N s) = true -> (m < JS.of_N e) = true ->
  App.magToColor (Some m) = c.
Proof.
  intros _ Hc Hs He. apply Hc; [exact Hs | now apply lt_ge_exclusive |].
  intros k Hk. now apply (lt_not_ge m e k).
Qed.

(** The cascade of [magToColor] on a magnitude that is present. *)
Lemma magToColor_cascade (m : JS.number) :
  ((m >= JS.of_N 7) = true -> App.magToColor (Some m) = "#7f0000") /\
  ((m >= JS.of_N 6) = true -> (m < JS.of_N 7) = true ->
     App.magToColor (Some m) = "#b30000") /\
  ((m >= JS.of_N 5) = true -> (m < JS.of_N 6) = true ->
     App.magToColor (Some m) = "#d7301f") /\
  ((m >= JS.of_N 4) = true -> (m < JS.of_N 5) = true ->
     App.magToColor (Some m) = "#ef6548") /\
  ((m >= JS.of_N 2) = true -> (m < JS.of_N 4) = true ->
     App.magToColor (Some m) = "#fc8d59") /\
  ((m < JS.of_N 2) = true -> App.magToColor (Some m) = "#fdbb84") /\
  ((m < JS.of_N 0) = true -> App.magToColor (Some m) = "#fdbb84").
Proof.
  assert (Hlow : forall a, (a <= 2)%N -> (m < JS.of_N a) = true ->
                           App.magToColor (Some m) = "#fdbb84").
  { intros a Ha Hlt. unfold App.magToColor.
    rewrite (lt_not_ge m a 7), (lt_not_ge m a 6), (lt_not_ge m a 5),
            (lt_not_ge m a 4), (lt_not_ge m a 2) by (assumption || lia).
    reflexivity. }
  repeat split.
  - intros H. unfold App.magToColor. now rewrite H.
  - apply (band_color m 6 7); [lia|]. intros x Hs He Hk. unfold App.magToColor.
    now rewrite He, Hs.
  - apply (band_color m 5 6); [lia|]. intros x Hs He Hk. unfold App.magToColor.
    now rewrite (Hk 7%N), He, Hs by lia.
  - apply (band_color m 4 5); [lia|]. intros x Hs He Hk. unfold App.magToColor.
    now rewrite (Hk 7%N), (Hk 6%N), He, Hs by lia.
  - apply (band_color m 2 4); [lia|]. intros x Hs He Hk. unfold App.magToColor.
    now rewrite (Hk 7%N), (Hk 6%N), (Hk 5%N), He, Hs by lia.
  - apply (Hlow 2%N). lia.
  - apply (Hlow 0%N). lia.
Qed.

(** C2. [magToColor] is an ordered cascade.  An absent magnitude is the
    neutral gray [#9aa0a6].  For a magnitude [m]: [m >= 7] is deep red
    [#7f0000]; [6 <= m < 7] is red [#b30000]; [5 <= m < 6] is red-orange
    [#d7301f]; [4 <= m < 5] is orange [#ef6548]; [2 <= m < 4] is light orange
    [#fc8d59]; [m < 2], every negative [m] included, is pale orange
    [#fdbb84].  The lower bound of a band belongs to it: at [m = 7, 6, 5, 4, 2]
    the higher band wins. *)
Theorem magToColor_bands :
  App.magToColor None = "#9aa0a6" /\
  (forall m : JS.number,
     ((m >= JS.of_N 7) = true -> App.magToColor (Some m) = "#7f0000") /\
     ((m >= JS.of_N 6) = true -> (m < JS.of_N 7) = true ->
        App.magToColor (Some m) = "#b30000") /\
     ((m >= JS.of_N 5) = true -> (m < JS.of_N 6) = true ->
        App.magToColor (Some m) = "#d7301f") /\
     ((m >= JS.of_N 4) = true -> (m < JS.of_N 5) = true ->
        App.magToColor (Some m) = "#ef6548") /\
     ((m >= JS.of_N 2) = true -> (m < JS.of_N 4) = true ->
        App.magToColor (Some m) = "#fc8d59") /\
     ((m < JS.of_N 2) = true -> App.magToColor (Some m) = "#fdbb84") /\
     ((m < JS.of_N 0) = true -> App.magToColor (Some m) = "#fdbb84")) /\
  App.magToColor (Some (JS.of_N 7)) = "#7f0000" /\
  App.magToColor (Some (JS.of_N 6)) = "#b30000" /\
  App.magToColor (Some (JS.of_N 5)) = "#d7301f" /\
  App.magToColor (Some (JS.of_N 4)) = "#ef6548" /\
  App.magToColor (Some (JS.of_N 2)) = "#fc8d59".
Proof.
  split; [reflexivity|]. split; [exact magToColor_cascade|].
  repeat split; reflexivity.
Qed.

(** At the boundary 5 the band that starts there wins, through the theorem. *)
Lemma magToColor_bands_witness :
  (JS.of_N 5 >= JS.of_N 5) = true /\ (JS.of_N 5 < JS.of_N 6) = true /\
  App.magToColor (Some (JS.of_N 5)) = "#d7301f" /\
  (JS.Num (-1.5) < JS.of_N 2) = true /\
  App.magToColor (Some (JS.Num (-1.5))) = "#fdbb84".
Proof.
  split; [reflexivity|]. split; [reflexivity|]. split.
  - apply (proj1 (proj2 (proj2 (proj1 (proj2 magToColor_bands) (JS.of_N 5)))));
      reflexivity.
  - split; [reflexivity|].
    apply (proj1 (proj2 (proj2 (proj2 (proj2 (proj2
             (proj1 (proj2 magToColor_bands) (JS.Num (-1.5))))))))).
    reflexivity.
Defined.

(** *** The radius, line 31 of [MapView.tsx] *)

Lemma ge_PosInf (a : JS.number) : a <> JS.NaN -> (JS.PosInf >= a) = true.
Proof. destruct a; simpl; congruence. Qed.

Lemma ge_NegInf (a : JS.number) : a <> JS.NaN -> (a >= JS.NegInf) = true.
Proof. destruct a; simpl; congruence. Qed.

Lemma round_nonneg (q : Q) : (0 <= q)%Q -> (JS.round q >= JS.Num 0) = true.
Proof. intros H. apply (round_mono 0 q H). Qed.

Lemma times2 (m : JS.number) :
  m * JS.of_N 2 =
  match m with
  | JS.Num x => JS.round (x * 2)
  | JS.PosInf => JS.PosInf
  | JS.NegInf => JS.NegInf
  | JS.NaN => JS.NaN
  end.
Proof. destruct m; reflexivity. Qed.

Lemma plus3 (x : JS.number) :
  x + JS.of_N 3 =
  match x with
  | JS.Num v => JS.round (v + 3)
  | JS.PosInf => JS.PosInf
  | JS.NegInf => JS.NegInf
  | JS.NaN => JS.NaN
  end.
Proof. destruct x; reflexivity. Qed.

Lemma max3 (x : JS.number) :
  JS.Math_max (JS.of_N 3) x = if JS.of_N 3 >= x then JS.of_N 3 else x.
Proof. destruct x; reflexivity. Qed.

Lemma times2_mono (a b : JS.number) :
  (b >= a) = true -> (b * JS.of_N 2 >= a * JS.of_N 2) = true.
Proof.
  intros H. rewrite !times2.
  destruct a as [x| | |], b as [y| | |]; try discriminate H; try reflexivity.
  - apply round_mono. apply Qle_bool_iff in H. lra.
  - apply ge_PosInf, round_not_NaN.
  - apply ge_NegInf, round_not_NaN.
Qed.

Lemma plus3_mono (a b : JS.number) :
  (b >= a) = true -> (b + JS.of_N 3 >= a + JS.of_N 3) = true.
Proof.
  intros H. rewrite !plus3.
  destruct a as [x| | |], b as [y| | |]; try discriminate H; try reflexivity.
  - apply round_mono. apply Qle_bool_iff in H. lra.
  - apply ge_PosInf, round_not_NaN.
  - apply ge_NegInf, round_not_NaN.
Qed.

Lemma max3_mono (a b : JS.number) :
  (b >= a) = true ->
  (JS.Math_max (JS.of_N 3) b >= JS.Math_max (JS.of_N 3) a) = true.
Proof.
  intros H. destruct (ge_not_NaN b a H) as [Hb Ha].
  rewrite (max3 a), (max3 b).
  destruct (JS.of_N 3 >= a) eqn:Ea, (JS.of_N 3 >= b) eqn:Eb.
  - reflexivity.
  - destruct (ge_total (JS.of_N 3) b) as [E|E]; [discriminate | exact Hb | congruence | exact E].
  - rewrite (ge_trans _ _ _ Eb H) in Ea. discriminate Ea.
  - exact H.
Qed.

Lemma radiusFor_unfold (m : JS.number) :
  MapView.radiusFor (Some m) =
  JS.Math_max (JS.of_N 3) (m * JS.of_N 2 + JS.of_N 3).
Proof. reflexivity. Qed.

Lemma scaled_not_NaN (m : JS.number) :
  m <> JS.NaN -> m * JS.of_N 2 + JS.of_N 3 <> JS.NaN.
Proof.
  intros H. rewrite times2. destruct m as [x| | |]; try discriminate; [|congruence].
  rewrite plus3.
  destruct (round_cases (x * 2)) as [[r ->] | [-> | ->]]; try discriminate.
  apply round_not_NaN.
Qed.

Lemma radiusFor_mono (m1 m2 : JS.number) :
  (m2 >= m1) = true ->
  (MapView.radiusFor (Some m2) >= MapView.radiusFor (Some m1)) = true.
Proof.
  intros H. rewrite !radiusFor_unfold.
  now apply max3_mono, plus3_mono, times2_mono.
Qed.

Lemma radiusFor_None : MapView.radiusFor None = JS.of_N 3.
Proof. vm_compute. reflexivity. Qed.

Lemma radiusFor_at_least_3 (mag : option JS.number) :
  mag <> Some JS.NaN -> (MapView.radiusFor mag >= JS.of_N 3) = true.
Proof.
  intros Hn. destruct mag as [m|]; [|now rewrite radiusFor_None].
  assert (Hm : m <> JS.NaN) by congruence.
  pose proof (scaled_not_NaN m Hm) as Hx.
  rewrite radiusFor_unfold, max3.
  destruct (JS.of_N 3 >= m * JS.of_N 2 + JS.of_N 3) eqn:E; [reflexivity|].
  destruct (ge_total (JS.of_N 3) (m * JS.of_N 2 + JS.of_N 3)) as [E'|E'];
    [discriminate | exact Hx | congruence | exact E'].
Qed.

(** A radius that does not exceed 3 is the 3 of the source. *)
Lemma radiusFor_three (m : JS.number) :
  (JS.of_N 3 >= MapView.radiusFor (Some m)) = true ->
  MapView.radiusFor (Some m) = JS.of_N 3.
Proof.
  rewrite radiusFor_unfold. intros H.
  destruct (ge_not_NaN _ _ H) as [_ Hr].
  assert (Hx : m * JS.of_N 2 + JS.of_N 3 <> JS.NaN).
  { intros E. rewrite E in Hr. now apply Hr. }
  rewrite max3 in *.
  destruct (JS.of_N 3 >= m * JS.of_N 2 + JS.of_N 3) eqn:E; [reflexivity | congruence].
Qed.

Lemma radiusFor_nonpositive (q : Q) :
  (q <= 0)%Q -> MapView.radiusFor (Some (JS.Num q)) = JS.of_N 3.
Proof.
  intros Hq. apply radiusFor_three.
  assert (E : MapView.radiusFor (Some (JS.Num 0)) = JS.of_N 3) by (vm_compute; reflexivity).
  rewrite <- E at 1. apply radiusFor_mono. cbn [JS.ge]. now apply Qle_bool_iff.
Qed.

Lemma of_N_3_inv (r : Q) : JS.of_N 3 = JS.Num r -> r = 3%Q.
Proof. intros H. injection H as H. symmetry. exact H. Qed.

Lemma nearest_3 : (JS.nearest 3 == 3)%Q.
Proof. apply Qeq_bool_iff. vm_compute. reflexivity. Qed.

(** A finite radius of a positive magnitude is within two roundings of
    [2 q + 3]. *)
Lemma radiusFor_accurate (q r : Q) :
  (0 < q)%Q ->
  MapView.radiusFor (Some (JS.Num q)) = JS.Num r ->
  (- ((q * 2 + 3) * JS.pow2 (-51)) <= r - (q * 2 + 3) /\
   r - (q * 2 + 3) <= (q * 2 + 3) * JS.pow2 (-51))%Q.
Proof.
  intros Hq. rewrite radiusFor_unfold, times2, plus3.
  assert (Hq2 : (0 < q * 2)%Q) by lra.
  destruct (round_cases (q * 2)) as [[x1 H1] | [H1 | H1]]; rewrite H1.
  2: { intros H. discriminate H. }
  2: { pose proof (round_nonneg (q * 2) (Qlt_le_weak _ _ Hq2)) as N.
       rewrite H1 in N. discriminate N. }
  pose proof (round_finite _ _ Hq2 H1) as E1.
  pose proof (nearest_nonneg _ Hq2) as N1.
  destruct (nearest_error _ Hq2) as [L1 U1].
  assert (Hx : (0 < x1 + 3)%Q) by lra.
  destruct (round_cases (x1 + 3)) as [[x2 H2] | [H2 | H2]]; rewrite H2.
  2: { intros H. discriminate H. }
  2: { pose proof (round_nonneg (x1 + 3) (Qlt_le_weak _ _ Hx)) as N.
       rewrite H2 in N. discriminate N. }
  pose proof (round_finite _ _ Hx H2) as E2.
  destruct (nearest_error _ Hx) as [L2 U2].
  assert (G2 : (3 <= x2)%Q).
  { rewrite E2. apply Qle_trans with (JS.nearest 3).
    - rewrite nearest_3. apply Qle_refl.
    - apply nearest_mono; lra. }
  assert (Hc : (JS.pow2 (-53) == 1 # 9007199254740992)%Q) by reflexivity.
  assert (Hd : (JS.pow2 (-51) == 1 # 2251799813685248)%Q) by reflexivity.
  assert (He : (JS.pow2 (-1075) <= 1 # 9007199254740992)%Q).
  { rewrite <- Hc. apply pow2_le. lia. }
  pose proof (pow2_pos (-1075)) as Pe.
  rewrite Hc in L1, U1, L2, U2. rewrite Hd.
  rewrite <- E1 in L1, U1. rewrite <- E2 in L2, U2.
  set (e := JS.pow2 (-1075)) in *.
  rewrite max3. cbn [JS.ge JS.of_N].
  change (inject_Z (Z.of_N 3)) with 3%Q.
  destruct (Qle_bool x2 3) eqn:B; intros H.
  - apply Qle_bool_iff in B. assert (Er : r = 3%Q) by now apply of_N_3_inv. subst r.
    split; lra.
  - assert (Er : r = x2) by congruence. subst r. split; lra.
Qed.




(** Each marker takes its radius and its colour from the magnitude alone. *)
Lemma marker_of_magnitude (f : Feed.EarthquakeFeature) :
  MapView.radius (MapView.marker f) =
    MapView.radiusFor (Feed.mag (Feed.properties f)) /\
  MapView.color (MapView.marker f) =
    App.magToColor (Feed.mag (Feed.properties f)).
Proof.
  unfold MapView.marker.
  destruct (Feed.coordinates (Feed.geometry f)) as [[lon lat] depth].
  split; reflexivity.
Qed.

Example markers_of_sample :
  List.map (fun k => (MapView.key k, MapView.color k))
           (MapView.MapView [Sample.a; Sample.b; Sample.c]) =
  [("a", "#d7301f"); ("b", "#9aa0a6"); ("c", "#fdbb84")].
Proof. reflexivity. Qed.

End Mapper.

(* ===================================================================== *)
(** ** The filter stage *)
(* ===================================================================== *)

Section Filter.

Local Open Scope js_scope.

Lemma filtered_cons (f : Feed.EarthquakeFeature) (fs : list Feed.EarthquakeFeature)
    (t : JS.number) :
  App.filtered (f :: fs) t =
  if meets t f then f :: App.filtered fs t else App.filtered fs t.
Proof. reflexivity. Qed.

Lemma filtered_subseq (fs : list Feed.EarthquakeFeature) (t : JS.number) :
  Subseq (App.filtered fs t) fs.
Proof.
  induction fs as [|f fs IH].
  - constructor.
  - rewrite filtered_cons. destruct (meets t f); now constructor.
Qed.

Lemma filtered_all_meet (fs : list Feed.EarthquakeFeature) (t : JS.number) :
  Forall (fun f => meets t f = true) (App.filtered fs t).
Proof.
  induction fs as [|f fs IH].
  - constructor.
  - rewrite filtered_cons. destruct (meets t f) eqn:H; [constructor|]; assumption.
Qed.

(** No subsequence of events that meet the threshold is missed. *)
Lemma filtered_greatest (t : JS.number) (l fs : list Feed.EarthquakeFeature) :
  Subseq l fs -> Forall (fun f => meets t f = true) l ->
  Subseq l (App.filtered fs t).
Proof.
  induction 1 as [| x l k Hs IH | x l k Hs IH]; intros Hall.
  - constructor.
  - inversion Hall as [| ? ? Hx Hl]; subst.
    rewrite filtered_cons, Hx. constructor. now apply IH.
  - rewrite filtered_cons. destruct (meets t x); [constructor|]; now apply IH.
Qed.

Lemma filtered_In (fs : list Feed.EarthquakeFeature) (t : JS.number)
    (f : Feed.EarthquakeFeature) :
  In f (App.filtered fs t) <-> In f fs /\ meets t f = true.
Proof. unfold App.filtered. apply filter_In. Qed.

(** C1. [filtered] is the subsequence, in the order of the list, of the
    events with [(mag ?? -Infinity) >= t]: it is a subsequence of the events,
    its members are the events that pass the test, and every subsequence of
    passing events is a subsequence of it.  At [t = 0] an event without
    magnitude is left out and an event of magnitude 0 is kept. *)
Theorem filtered_exact (fs : list Feed.EarthquakeFeature) (t : JS.number) :
  Subseq (App.filtered fs t) fs /\
  (forall f, In f (App.filtered fs t) <->
             In f fs /\ (Feed.mag (Feed.properties f) ?? JS.NegInf >= t) = true) /\
  (forall l, Subseq l fs ->
             Forall (fun f => (Feed.mag (Feed.properties f) ?? JS.NegInf >= t) = true) l ->
             Subseq l (App.filtered fs t)) /\
  (forall f, Feed.mag (Feed.properties f) = None ->
             ~ In f (App.filtered fs (JS.of_N 0))) /\
  (forall f q, In f fs -> Feed.mag (Feed.properties f) = Some (JS.Num q) ->
               (q == 0)%Q -> In f (App.filtered fs (JS.of_N 0))).
Proof.
  split; [apply filtered_subseq|].
  split; [intros f; apply filtered_In|].
  split; [intros l; apply filtered_greatest|].
  split.
  - intros f Hn Hin. apply filtered_In in Hin. destruct Hin as [_ Hm].
    unfold meets in Hm. rewrite Hn in Hm. discriminate.
  - intros f q Hin Hm Hq. apply filtered_In. split; [exact Hin|].
    unfold meets. rewrite Hm. simpl. apply Qle_bool_iff. rewrite Hq. apply Qle_refl.
Qed.

(** The scenario of three events at threshold 2, and the two cases at 0. *)
Lemma filtered_exact_witness :
  App.filtered [Sample.a; Sample.b; Sample.c] (JS.of_N 2) = [Sample.a] /\
  Subseq [Sample.a] (App.filtered [Sample.a; Sample.b; Sample.c] (JS.of_N 2)) /\
  ~ In Sample.b (App.filtered [Sample.b; Sample.z] (JS.of_N 0)) /\
  In Sample.z (App.filtered [Sample.b; Sample.z] (JS.of_N 0)).
Proof.
  split; [reflexivity|]. split.
  - apply (proj1 (proj2 (proj2
             (filtered_exact [Sample.a; Sample.b; Sample.c] (JS.of_N 2))))).
    + constructor. constructor. constructor. constructor.
    + constructor; [reflexivity | constructor].
  - split.
    + apply (proj1 (proj2 (proj2 (proj2
               (filtered_exact [Sample.b; Sample.z] (JS.of_N 0)))))).
      reflexivity.
    + apply (proj2 (proj2 (proj2 (proj2
               (filtered_exact [Sample.b; Sample.z] (JS.of_N 0)))))
               Sample.z 0%Q).
      * right. left. reflexivity.
      * reflexivity.
      * reflexivity.
Defined.

End Filter.

(* ===================================================================== *)
(** ** The legend *)
(* ===================================================================== *)

Section Legend.

Local Open Scope js_scope.

Example MagnitudeLegend_rows :
  List.map (fun r => (App.label r, App.swatch r)) App.MagnitudeLegend =
  [("0–2", "#fdbb84"); ("2–4", "#fc8d59"); ("4–5", "#ef6548");
   ("5–6", "#d7301f"); ("6–7", "#b30000"); ("7+", "#7f0000")].
Proof. reflexivity. Qed.

Lemma map_index_nth {A B : Type} (f : A -> nat -> B) (xs : list A) (i idx : nat) :
  nth_error (App.map_index f i xs) idx =
  option_map (fun x => f x (i + idx)%nat) (nth_error xs idx).
Proof.
  revert i idx. induction xs as [|x xs IH]; intros i [|idx]; simpl; try reflexivity.
  - now rewrite Nat.add_0_r.
  - rewrite IH. now rewrite Nat.add_succ_r.
Qed.

(** C9. The legend has one row per stop [s] of [0, 2, 4, 5, 6, 7].  The
    swatch of the row is a call of [magToColor] (at [s + 0.01]), and it is the
    colour [magToColor] gives to every magnitude of the band: every [m] with
    [s <= m], and [m] below the next stop when there is one. *)
Theorem legend_swatch_is_band_color (idx : nat) (s : N) :
  nth_error App.stops idx = Some s ->
  exists row,
    nth_error App.MagnitudeLegend idx = Some row /\
    App.key row = s /\
    App.swatch row = App.magToColor (Some (JS.of_N s + JS.Num 0.01)) /\
    forall m : JS.number,
      (m >= JS.of_N s) = true ->
      (forall next, nth_error App.stops (idx + 1) = Some next ->
                    (m < JS.of_N next) = true) ->
      App.magToColor (Some m) = App.swatch row.
Proof.
  intros Hs. exists (App.legend_row s idx).
  split; [unfold App.MagnitudeLegend; rewrite map_index_nth, Hs; reflexivity|].
  split; [reflexivity|]. split; [reflexivity|].
  intros m Hge Hnext.
  destruct (magToColor_cascade m) as (H7 & H6 & H5 & H4 & H2 & H0 & _).
  do 6 (destruct idx as [|idx];
        [ injection Hs as <-;
          first [ specialize (Hnext _ eq_refl) | clear Hnext ];
          match goal with
          | |- _ = ?R =>
              let c := eval vm_compute in R in
              transitivity c; [auto | vm_compute; reflexivity]
          end |]).
  destruct idx; discriminate.
Qed.

(** The row of the stop 4 and a magnitude of its band. *)
Lemma legend_swatch_is_band_color_witness :
  nth_error App.stops 2 = Some 4%N /\
  exists row,
    nth_error App.MagnitudeLegend 2 = Some row /\
    App.swatch row = "#ef6548" /\
    App.magToColor (Some (JS.Num 4.5)) = App.swatch row.
Proof.
  split; [reflexivity|].
  destruct (legend_swatch_is_band_color 2 4%N eq_refl) as (row & Hr & _ & Hs & Hm).
  exists row. split; [exact Hr|]. split; [exact Hs|].
  apply Hm; [reflexivity|].
  intros next Hn. injection Hn as <-. reflexivity.
Defined.

End Legend.

(* ===================================================================== *)
(** ** The state controller *)
(* ===================================================================== *)

Section Controller.

Import Effects.

(** The state a failed run leaves, from the state the [try] block started in. *)
Lemma resume_failed (env : Net.Env) (e : Net.Thrown) (s : App.State) :
  Fails env e ->
  App.loadData_resume env s =
  (Returned tt,
   {| App.features := App.features s; App.minMag := App.minMag s;
      App.loading := false; App.error := Some (description e);
      App.lastUpdated := App.lastUpdated s |}).
Proof.
  intros H. unfold App.loadData_resume, try_catch_finally.
  rewrite (try_throws_clean env s e H). destruct e; reflexivity.
Qed.

(** The state a successful run leaves. *)
Lemma resume_delivered (env : Net.Env) (r : Feed.EarthquakeResponse) (s : App.State) :
  Delivers env r ->
  App.loadData_resume env s =
  (Returned tt,
   {| App.features := JS.or_else (Feed.features r) [];
      App.minMag := App.minMag s;
      App.loading := false;
      App.error := App.error s;
      App.lastUpdated :=
        Some (JS.optional_chain (Feed.metadata r) Feed.generated ?? Net.now env)%js |}).
Proof.
  intros H. unfold App.loadData_resume, try_catch_finally.
  rewrite (try_returns env r s H). reflexivity.
Qed.

Lemma loadData_unfold (env : Net.Env) (s : App.State) :
  App.loadData env s = App.loadData_resume env (exec App.loadData_begin s).
Proof. reflexivity. Qed.

(** C3. For every controller state and every failing fetch, the state after
    [loadData] has the events and [lastUpdated] it had before, the error
    message set to the description of the failure, and the loading flag
    cleared.  The same holds of the continuation alone, whatever state it
    resumes in.  A response of status 500 is one such failure, described as
    [HTTP 500]. *)
Theorem failed_fetch_keeps_data (s : App.State) (env : Net.Env) (e : Net.Thrown) :
  Fails env e ->
  (App.features (exec (App.loadData env) s) = App.features s /\
   App.lastUpdated (exec (App.loadData env) s) = App.lastUpdated s /\
   App.error (exec (App.loadData env) s) = Some (description e) /\
   App.loading (exec (App.loadData env) s) = false) /\
  (App.features (exec (App.loadData_resume env) s) = App.features s /\
   App.lastUpdated (exec (App.loadData_resume env) s) = App.lastUpdated s /\
   App.error (exec (App.loadData_resume env) s) = Some (description e) /\
   App.loading (exec (App.loadData_resume env) s) = false) /\
  (forall body now,
     Fails {| Net.fetched :=
                Net.FetchResolves {| Net.status := 500; Net.body := body |};
              Net.now := now |}
           (Net.ThrownError "HTTP 500")).
Proof.
  intros H. unfold exec.
  rewrite loadData_unfold, !(resume_failed env e _ H). simpl.
  repeat split.
  intros body now.
  apply (Fails_status {| Net.status := 500; Net.body := body |}). reflexivity.
Qed.

(** A response of status 500 arriving over data of an earlier fetch. *)
Lemma failed_fetch_keeps_data_witness :
  Fails Sample.http_500 (Net.ThrownError "HTTP 500") /\
  App.features (exec (App.loadData Sample.http_500) Sample.stale) =
    [Sample.a; Sample.b; Sample.c] /\
  App.lastUpdated (exec (App.loadData Sample.http_500) Sample.stale) =
    Some (JS.of_N 1700000000000) /\
  App.error (exec (App.loadData Sample.http_500) Sample.stale) = Some "HTTP 500" /\
  App.loading (exec (App.loadData Sample.http_500) Sample.stale) = false.
Proof.
  assert (F : Fails Sample.http_500 (Net.ThrownError "HTTP 500")).
  { apply (Fails_status
             {| Net.status := 500;
                Net.body := Net.BodyRejects
                              (Net.ThrownError "Unexpected token < in JSON") |}).
    reflexivity. }
  split; [exact F|].
  exact (proj1 (failed_fetch_keeps_data Sample.stale Sample.http_500 _ F)).
Defined.

(** C4, as stated: [loadData] fails exactly when the contract of the Feed
    Client assigns one of its three errors.  It does not: a response of
    status 200 with body [{}] lacks both required fields, the contract
    assigns [ParseError], and [loadData] succeeds. *)
Lemma contract_fails_on_empty_object :
  Contract.fetchSnapshot_error Sample.empty_object = Some Contract.ParseError /\
  outcome (App.loadData_try Sample.empty_object) App.initial = Returned tt /\
  App.error (exec (App.loadData Sample.empty_object) App.initial) = None /\
  ~ Contract.holds_at Sample.empty_object App.initial.
Proof.
  split; [reflexivity|]. split; [reflexivity|]. split; [reflexivity|].
  intros [_ H]. destruct H as [e He]; [discriminate|]. discriminate He.
Qed.

(** C4, amended.  The [try] block of [loadData] throws exactly in four cases:
    [fetch] rejects (no response); the status is outside 200-299, thrown as
    an [Error] whose message is [HTTP <status>]; [res.json()] rejects; the
    body parses to [null].  A body that parses to an object is a success
    whichever fields it lacks.  A failure reaches the state as its message
    only, with no kind attached. *)
Theorem loadData_fails_exactly (env : Net.Env) (s : App.State) :
  (forall e, outcome (App.loadData_try env) s = Threw e <-> Fails env e) /\
  (forall r, Delivers env r -> outcome (App.loadData_try env) s = Returned tt) /\
  (forall e, Fails env e ->
             App.error (exec (App.loadData env) s) = Some (description e)).
Proof.
  unfold outcome. split; [|split].
  - intros e. split.
    + intros H. destruct (fails_or_delivers env) as [[e' F] | [r D]].
      * rewrite (try_throws_clean env s e' F) in H. simpl in H.
        injection H as <-. exact F.
      * rewrite (try_returns env r s D) in H. discriminate H.
    + intros F. now rewrite (try_throws_clean env s e F).
  - intros r D. now rewrite (try_returns env r s D).
  - intros e F. unfold exec. rewrite loadData_unfold, (resume_failed env e _ F).
    reflexivity.
Qed.

(** The four ways on samples, and the success on [{}]. *)
Lemma loadData_fails_exactly_witness :
  Fails Sample.http_500 (Net.ThrownError "HTTP 500") /\
  outcome (App.loadData_try Sample.http_500) App.initial =
    Threw (Net.ThrownError "HTTP 500") /\
  outcome (App.loadData_try Sample.empty_object) App.initial = Returned tt.
Proof.
  assert (F : Fails Sample.http_500 (Net.ThrownError "HTTP 500")).
  { apply (Fails_status
             {| Net.status := 500;
                Net.body := Net.BodyRejects
                              (Net.ThrownError "Unexpected token < in JSON") |}).
    reflexivity. }
  split; [exact F|]. split.
  - apply (proj1 (loadData_fails_exactly Sample.http_500 App.initial)). exact F.
  - apply (proj1 (proj2 (loadData_fails_exactly Sample.empty_object App.initial))
             {| Feed.metadata := None; Feed.features := None |}).
    eexists. split; [reflexivity|]. split; reflexivity.
Defined.

(** C6. For every successful fetch whose body has an empty or a missing
    feature list, [loadData] returns without throwing and leaves an empty
    event list, a timestamp (the feed's [generated] when the body has one, the
    current time otherwise), no error message and the loading flag cleared. *)
Theorem empty_feed_is_success (s : App.State) (env : Net.Env)
    (r : Feed.EarthquakeResponse) :
  Delivers env r ->
  Feed.features r = None \/ Feed.features r = Some [] ->
  outcome (App.loadData_try env) (exec App.loadData_begin s) = Returned tt /\
  outcome (App.loadData env) s = Returned tt /\
  App.features (exec (App.loadData env) s) = [] /\
  App.lastUpdated (exec (App.loadData env) s) =
    Some (JS.optional_chain (Feed.metadata r) Feed.generated ?? Net.now env)%js /\
  (forall g, JS.optional_chain (Feed.metadata r) Feed.generated = Some g ->
             App.lastUpdated (exec (App.loadData env) s) = Some g) /\
  App.error (exec (App.loadData env) s) = None /\
  App.loading (exec (App.loadData env) s) = false.
Proof.
  intros D Hf. unfold outcome, exec.
  rewrite loadData_unfold, (resume_delivered env r _ D), (try_returns env r _ D).
  simpl. repeat split.
  - destruct Hf as [-> | ->]; reflexivity.
  - intros g ->. reflexivity.
Qed.

(** A body with [features: []] and one with no feature list at all. *)
Lemma empty_feed_is_success_witness :
  (App.features (exec (App.loadData Sample.no_quakes) Sample.stale) = [] /\
   App.lastUpdated (exec (App.loadData Sample.no_quakes) Sample.stale) =
     Some (JS.of_N 1700000200000) /\
   App.error (exec (App.loadData Sample.no_quakes) Sample.stale) = None) /\
  (App.features (exec (App.loadData Sample.empty_object) Sample.stale) = [] /\
   App.error (exec (App.loadData Sample.empty_object) Sample.stale) = None).
Proof.
  split.
  - destruct (empty_feed_is_success Sample.stale Sample.no_quakes
                {| Feed.metadata :=
                     Some {| Feed.generated := Some (JS.of_N 1700000200000) |};
                   Feed.features := Some [] |})
      as (_ & _ & Hf & Hl & _ & He & _).
    + eexists. split; [reflexivity|]. split; reflexivity.
    + right. reflexivity.
    + split; [exact Hf|]. split; [exact Hl | exact He].
  - destruct (empty_feed_is_success Sample.stale Sample.empty_object
                {| Feed.metadata := None; Feed.features := None |})
      as (_ & _ & Hf & _ & _ & He & _).
    + eexists. split; [reflexivity|]. split; reflexivity.
    + left. reflexivity.
    + split; [exact Hf | exact He].
Defined.

(** C10. On a successful fetch whose body lacks [metadata.generated] (no
    [metadata], or a [metadata] without [generated]), [loadData] returns
    without throwing, and [lastUpdated] is set to the current time
    [Date.now()]; no error message is set. *)
Theorem missing_generated_uses_now (s : App.State) (env : Net.Env)
    (r : Feed.EarthquakeResponse) :
  Delivers env r ->
  JS.optional_chain (Feed.metadata r) Feed.generated = None ->
  outcome (App.loadData env) s = Returned tt /\
  App.lastUpdated (exec (App.loadData env) s) = Some (Net.now env) /\
  App.features (exec (App.loadData env) s) = JS.or_else (Feed.features r) [] /\
  App.error (exec (App.loadData env) s) = None /\
  App.loading (exec (App.loadData env) s) = false.
Proof.
  intros D Hg. unfold outcome, exec.
  rewrite loadData_unfold, (resume_delivered env r _ D). simpl.
  rewrite Hg. repeat split.
Qed.

(** The body [{}] at the time 1700000300000. *)
Lemma missing_generated_uses_now_witness :
  App.lastUpdated (exec (App.loadData Sample.empty_object) Sample.stale) =
    Some (JS.of_N 1700000300000) /\
  App.error (exec (App.loadData Sample.empty_object) Sample.stale) = None.
Proof.
  destruct (missing_generated_uses_now Sample.stale Sample.empty_object
              {| Feed.metadata := None; Feed.features := None |})
    as (_ & Hl & _ & He & _).
  - eexists. split; [reflexivity|]. split; reflexivity.
  - reflexivity.
  - split; [exact Hl | exact He].
Defined.

End Controller.

(* ===================================================================== *)
(** ** The handlers *)
(* ===================================================================== *)

Section Events.

Import Effects.

Variable parseFloat : string -> JS.number.

Example REFRESH_MS_is_five_minutes : App.REFRESH_MS = 300000%N.
Proof. reflexivity. Qed.

(** C7. Each event that starts a fetch (the mount of the component, a tick of
    the timer, a click on Retry) sets the loading flag and clears the error
    message, whatever the prior state, and then issues the request; the events,
    the timestamp and the threshold are as before.  The timer the mount
    installs has a period of 5 minutes, and a whole [loadData] is its
    continuation run from that state. *)
Theorem fetch_start_sets_loading (ev : App.Event) (s : App.State) :
  starts_fetch ev = true ->
  App.loading (fst (App.handle parseFloat ev s)) = true /\
  App.error (fst (App.handle parseFloat ev s)) = None /\
  In (App.Fetch Feed.FEED_URL "no-store") (snd (App.handle parseFloat ev s)) /\
  App.features (fst (App.handle parseFloat ev s)) = App.features s /\
  App.lastUpdated (fst (App.handle parseFloat ev s)) = App.lastUpdated s /\
  App.minMag (fst (App.handle parseFloat ev s)) = App.minMag s /\
  snd (App.handle parseFloat App.Mount s) =
    [App.Fetch Feed.FEED_URL "no-store"; App.SetInterval 300000] /\
  (forall env, App.loadData env s =
               App.loadData_resume env (fst (App.handle parseFloat ev s))).
Proof.
  intros H. destruct ev; try discriminate H; simpl; repeat split; auto.
Qed.

(** C8. A change of the threshold control to the value [v] sets the threshold
    to [parseFloat v] and nothing else: the events, the timestamp, the loading
    flag and the error message are as before, and no request is issued. *)
Theorem threshold_change_only_sets_threshold (v : string) (s : App.State) :
  App.minMag (fst (App.handle parseFloat (App.MinMagChange v) s)) = parseFloat v /\
  App.features (fst (App.handle parseFloat (App.MinMagChange v) s)) = App.features s /\
  App.lastUpdated (fst (App.handle parseFloat (App.MinMagChange v) s)) =
    App.lastUpdated s /\
  App.loading (fst (App.handle parseFloat (App.MinMagChange v) s)) = App.loading s /\
  App.error (fst (App.handle parseFloat (App.MinMagChange v) s)) = App.error s /\
  snd (App.handle parseFloat (App.MinMagChange v) s) = [].
Proof. repeat split. Qed.

End Events.

(** A click on Retry in a state that shows an error. *)
Lemma fetch_start_sets_loading_witness :
  starts_fetch App.RetryClick = true /\
  App.loading (fst (App.handle (fun _ => JS.NaN) App.RetryClick Sample.failed)) = true /\
  App.error (fst (App.handle (fun _ => JS.NaN) App.RetryClick Sample.failed)) = None.
Proof.
  split; [reflexivity|].
  destruct (fetch_start_sets_loading (fun _ => JS.NaN) App.RetryClick Sample.failed
              eq_refl) as (Hl & He & _).
  split; [exact Hl | exact He].
Defined.

(* ===================================================================== *)
(** ** Further properties: the filter at other thresholds *)
(* ===================================================================== *)

Section FilterThresholds.

Local Open Scope js_scope.

Lemma meets_narrow (t1 t2 : JS.number) (f : Feed.EarthquakeFeature) :
  (t2 >= t1) = true -> meets t2 f = true -> meets t1 f = true.
Proof. unfold meets. intros H12 H2. eapply ge_trans; eassumption. Qed.

Lemma subseq_length {A : Type} (l k : list A) : Subseq l k -> (List.length l <= List.length k)%nat.
Proof. induction 1; simpl; lia. Qed.

(** X1. Raising the threshold only removes events: when [t2 >= t1], filtering
    at [t2] what was kept at [t1] is filtering the whole list at [t2], and the
    list kept at [t2] is a subsequence of the one kept at [t1]. *)
Theorem filtered_narrowing (fs : list Feed.EarthquakeFeature) (t1 t2 : JS.number) :
  (t2 >= t1) = true ->
  App.filtered (App.filtered fs t1) t2 = App.filtered fs t2 /\
  Subseq (App.filtered fs t2) (App.filtered fs t1) /\
  (List.length (App.filtered fs t2) <= List.length (App.filtered fs t1))%nat.
Proof.
  intros H12.
  assert (E : App.filtered (App.filtered fs t1) t2 = App.filtered fs t2).
  { induction fs as [|f fs IH]; [reflexivity|].
    rewrite !filtered_cons.
    destruct (meets t2 f) eqn:H2.
    - rewrite (meets_narrow t1 t2 f H12 H2), filtered_cons, H2. now rewrite IH.
    - destruct (meets t1 f); [rewrite filtered_cons, H2|]; exact IH. }
  split; [exact E|].
  assert (S : Subseq (App.filtered fs t2) (App.filtered fs t1)).
  { rewrite <- E. apply filtered_subseq. }
  split; [exact S | now apply subseq_length].
Qed.

(** The sample events at the thresholds 2 and 5. *)
Lemma filtered_narrowing_witness :
  (JS.of_N 5 >= JS.of_N 2) = true /\
  App.filtered (App.filtered [Sample.a; Sample.b; Sample.c; Sample.z] (JS.of_N 2))
               (JS.of_N 5) = [Sample.a] /\
  Subseq (App.filtered [Sample.a; Sample.b; Sample.c; Sample.z] (JS.of_N 5))
         (App.filtered [Sample.a; Sample.b; Sample.c; Sample.z] (JS.of_N 2)).
Proof.
  split; [reflexivity|].
  destruct (filtered_narrowing [Sample.a; Sample.b; Sample.c; Sample.z]
              (JS.of_N 2) (JS.of_N 5) eq_refl) as (E & S & _).
  split; [rewrite E; reflexivity | exact S].
Defined.

Lemma filtered_twice (fs : list Feed.EarthquakeFeature) (t : JS.number) :
  App.filtered (App.filtered fs t) t = App.filtered fs t.
Proof.
  induction fs as [|f fs IH]; [reflexivity|].
  rewrite filtered_cons. destruct (meets t f) eqn:H; [|exact IH].
  rewrite filtered_cons, H. now rewrite IH.
Qed.

(** X2. The filter at the thresholds outside the slider's range.  At [NaN]
    nothing is kept.  At [-Infinity] every event is kept but those whose
    magnitude is [NaN], events without magnitude included.  At every other
    threshold no event without magnitude is kept.  Filtering the kept list
    again at the same threshold changes nothing. *)
Theorem filtered_edge_thresholds (fs : list Feed.EarthquakeFeature) :
  App.filtered fs JS.NaN = [] /\
  (forall f, In f (App.filtered fs JS.NegInf) <->
             In f fs /\ Feed.mag (Feed.properties f) <> Some JS.NaN) /\
  (forall t f, t <> JS.NegInf -> In f (App.filtered fs t) ->
               Feed.mag (Feed.properties f) <> None) /\
  (forall t, App.filtered (App.filtered fs t) t = App.filtered fs t).
Proof.
  split; [|split; [|split]].
  - induction fs as [|f fs IH]; [reflexivity|].
    rewrite filtered_cons. unfold meets.
    destruct (Feed.mag (Feed.properties f) ?? JS.NegInf); exact IH.
  - intros f. rewrite filtered_In. unfold meets.
    destruct (Feed.mag (Feed.properties f)) as [[q| | |]|]; simpl;
      split; intros [Hin H]; split; try assumption; try reflexivity;
      try discriminate; congruence.
  - intros t f Ht Hin Hn. apply filtered_In in Hin. destruct Hin as [_ Hm].
    unfold meets in Hm. rewrite Hn in Hm. destruct t; simpl in Hm; congruence.
  - intros t. apply filtered_twice.
Qed.

(** The event without magnitude at the thresholds [-Infinity] and 0.1. *)
Lemma filtered_edge_thresholds_witness :
  In Sample.b (App.filtered [Sample.a; Sample.b] JS.NegInf) /\
  (In Sample.a (App.filtered [Sample.a; Sample.b] (JS.Num 0.1)) ->
   Feed.mag (Feed.properties Sample.a) <> None).
Proof.
  split.
  - apply (proj1 (proj2 (filtered_edge_thresholds [Sample.a; Sample.b]))).
    split; [right; left; reflexivity | discriminate].
  - apply (proj1 (proj2 (proj2 (filtered_edge_thresholds [Sample.a; Sample.b])))).
    discriminate.
Defined.

End FilterThresholds.

(* ===================================================================== *)
(** ** Further properties: what the map displays *)
(* ===================================================================== *)

Section Displayed.

Local Open Scope js_scope.

Lemma lt_ge_trans (a b c : JS.number) :
  (a >= b) = true -> (c < b) = true -> (c < a) = true.
Proof.
  destruct a as [x| | |], b as [y| | |], c as [z| | |]; simpl;
    try reflexivity; try discriminate.
  intros H1 H2. apply Qle_bool_iff in H1. apply negb_true_iff in H2.
  apply negb_true_iff. destruct (Qle_bool x z) eqn:E; [|reflexivity].
  apply Qle_bool_iff in E.
  assert (Hyz : Qle_bool y z = true) by (apply Qle_bool_iff; lra). congruence.
Qed.

(** X3. A larger magnitude never gets a smaller marker.  The radius is
    exactly 3 for an absent magnitude and for every magnitude up to 0; in the
    arithmetic of doubles it stays 3 up to the magnitude [2 ^ -53], whose sum
    with 3 rounds back to 3, and it is above 3 from the magnitude [2 ^ -52]
    on. *)
Theorem radius_monotone :
  (forall m1 m2 : JS.number,
     (m2 >= m1) = true ->
     (MapView.radiusFor (Some m2) >= MapView.radiusFor (Some m1)) = true) /\
  (forall m : JS.number,
     (JS.of_N 0 >= m) = true -> MapView.radiusFor (Some m) = JS.of_N 3) /\
  (forall m : JS.number,
     (JS.Num (JS.pow2 (-53)) >= m) = true -> MapView.radiusFor (Some m) = JS.of_N 3) /\
  (forall m : JS.number,
     (m >= JS.Num (JS.pow2 (-52))) = true ->
     (JS.of_N 3 < MapView.radiusFor (Some m)) = true) /\
  MapView.radiusFor None = JS.of_N 3.
Proof.
  assert (Hlow : forall m : JS.number,
            (JS.Num (JS.pow2 (-53)) >= m) = true ->
            MapView.radiusFor (Some m) = JS.of_N 3).
  { intros m H. apply radiusFor_three.
    assert (E : MapView.radiusFor (Some (JS.Num (JS.pow2 (-53)))) = JS.of_N 3)
      by (vm_compute; reflexivity).
    rewrite <- E at 1. now apply radiusFor_mono. }
  split; [exact radiusFor_mono|]. split; [|split; [exact Hlow|split]].
  - intros m H. apply Hlow. eapply ge_trans; [|exact H]. vm_compute. reflexivity.
  - intros m H. apply (lt_ge_trans _ _ _ (radiusFor_mono _ _ H)).
    vm_compute. reflexivity.
  - exact radiusFor_None.
Qed.

(** Magnitudes 1.9 and 5.2, and magnitude -3. *)
Lemma radius_monotone_witness :
  (JS.Num 5.2 >= JS.Num 1.9) = true /\
  (MapView.radiusFor (Some (JS.Num 5.2)) >= MapView.radiusFor (Some (JS.Num 1.9))) = true /\
  (JS.of_N 0 >= JS.Num (-3)) = true /\
  MapView.radiusFor (Some (JS.Num (-3))) = JS.of_N 3.
Proof.
  split; [reflexivity|]. split.
  - apply (proj1 radius_monotone). reflexivity.
  - split; [reflexivity|]. apply (proj1 (proj2 radius_monotone)). reflexivity.
Defined.

Lemma In_MapView (fs : list Feed.EarthquakeFeature) (k : MapView.Marker) :
  In k (MapView.MapView fs) <-> exists f, In f fs /\ k = MapView.marker f.
Proof.
  unfold MapView.MapView. rewrite in_map_iff.
  split; intros (f & H1 & H2); exists f; (split; [assumption || congruence | congruence || assumption]).
Qed.

(** An event that passes the filter has a magnitude that is not [NaN]. *)
Lemma meets_not_NaN (t : JS.number) (f : Feed.EarthquakeFeature) :
  meets t f = true -> Feed.mag (Feed.properties f) <> Some JS.NaN.
Proof. unfold meets. intros H E. rewrite E in H. discriminate H. Qed.

(** X4. The map shows one marker per event that passes the filter, in the
    order of the events and keyed by the event's id, so never more markers
    than events.  Every marker shown, at every threshold, has a radius of at
    least 3: an event whose magnitude is [NaN] never passes the filter. *)
Theorem displayed_markers (fs : list Feed.EarthquakeFeature) (t : JS.number) :
  List.map MapView.key (MapView.MapView (App.filtered fs t)) =
    List.map Feed.id (App.filtered fs t) /\
  (List.length (MapView.MapView (App.filtered fs t)) <= List.length fs)%nat /\
  (forall k, In k (MapView.MapView (App.filtered fs t)) ->
             (MapView.radius k >= JS.of_N 3) = true /\
             exists f, In f fs /\
                       (Feed.mag (Feed.properties f) ?? JS.NegInf >= t) = true /\
                       k = MapView.marker f).
Proof.
  split; [|split].
  - unfold MapView.MapView. rewrite map_map. apply map_ext. intros f.
    unfold MapView.marker.
    destruct (Feed.coordinates (Feed.geometry f)) as [[lon lat] depth]. reflexivity.
  - unfold MapView.MapView. rewrite length_map.
    apply subseq_length, filtered_subseq.
  - intros k Hk. apply In_MapView in Hk. destruct Hk as (f & Hf & ->).
    apply filtered_In in Hf. destruct Hf as [Hin Hm]. split.
    + destruct (marker_of_magnitude f) as [-> _].
      apply radiusFor_at_least_3. now apply (meets_not_NaN t).
    + exists f. auto.
Qed.

(** The marker of the sample event [a] at threshold 2. *)
Lemma displayed_markers_witness :
  In (MapView.marker Sample.a)
     (MapView.MapView (App.filtered [Sample.a; Sample.b; Sample.c] (JS.of_N 2))) /\
  (MapView.radius (MapView.marker Sample.a) >= JS.of_N 3) = true.
Proof.
  assert (H : In (MapView.marker Sample.a)
                 (MapView.MapView
                    (App.filtered [Sample.a; Sample.b; Sample.c] (JS.of_N 2)))).
  { left. reflexivity. }
  split; [exact H|].
  exact (proj1 (proj2 (proj2
           (displayed_markers [Sample.a; Sample.b; Sample.c] (JS.of_N 2))) _ H)).
Defined.

Lemma legend_swatches :
  List.map App.swatch App.MagnitudeLegend =
  ["#fdbb84"; "#fc8d59"; "#ef6548"; "#d7301f"; "#b30000"; "#7f0000"].
Proof. reflexivity. Qed.

(** X5. The legend shows the colour of every magnitude that is present, and
    it does not show the gray of an absent magnitude.  At every threshold but
    [-Infinity] no marker on the map is gray, so the colour of every marker
    shown is a colour of the legend. *)
Theorem marker_colors_and_legend :
  (forall mag : option JS.number,
     In (App.magToColor mag) (List.map App.swatch App.MagnitudeLegend) <->
     mag <> None) /\
  (forall (fs : list Feed.EarthquakeFeature) (t : JS.number) (k : MapView.Marker),
     t <> JS.NegInf ->
     In k (MapView.MapView (App.filtered fs t)) ->
     MapView.color k <> "#9aa0a6" /\
     In (MapView.color k) (List.map App.swatch App.MagnitudeLegend)).
Proof.
  assert (Hleg : forall mag : option JS.number,
            In (App.magToColor mag) (List.map App.swatch App.MagnitudeLegend) <->
            mag <> None).
  { intros mag. rewrite legend_swatches. destruct mag as [m|].
    - split; [discriminate|]. intros _. unfold App.magToColor.
      destruct (m >= JS.of_N 7); [simpl; tauto|].
      destruct (m >= JS.of_N 6); [simpl; tauto|].
      destruct (m >= JS.of_N 5); [simpl; tauto|].
      destruct (m >= JS.of_N 4); [simpl; tauto|].
      destruct (m >= JS.of_N 2); simpl; tauto.
    - split; [|congruence]. simpl. intuition discriminate. }
  split; [exact Hleg|].
  intros fs t k Ht Hk. apply In_MapView in Hk. destruct Hk as (f & Hf & ->).
  apply filtered_In in Hf. destruct Hf as [_ Hm].
  destruct (marker_of_magnitude f) as [_ ->].
  assert (Hp : Feed.mag (Feed.properties f) <> None).
  { intros E. unfold meets in Hm. rewrite E in Hm. destruct t; simpl in Hm; congruence. }
  split; [|now apply Hleg].
  intros E. apply Hp. apply Hleg in Hp. rewrite E, legend_swatches in Hp.
  simpl in Hp. exfalso. intuition discriminate.
Qed.

(** The sample events at threshold 0: the marker of [z] is pale orange. *)
Lemma marker_colors_and_legend_witness :
  JS.of_N 0 <> JS.NegInf /\
  In (MapView.marker Sample.z)
     (MapView.MapView (App.filtered [Sample.b; Sample.z] (JS.of_N 0))) /\
  In (MapView.color (MapView.marker Sample.z)) (List.map App.swatch App.MagnitudeLegend).
Proof.
  assert (H : In (MapView.marker Sample.z)
                 (MapView.MapView (App.filtered [Sample.b; Sample.z] (JS.of_N 0)))).
  { left. reflexivity. }
  split; [discriminate|]. split; [exact H|].
  refine (proj2 (proj2 marker_colors_and_legend
                   [Sample.b; Sample.z] (JS.of_N 0) _ _ H)).
  discriminate.
Defined.

End Displayed.

(* ===================================================================== *)
(** ** Further properties: one run of [loadData] *)
(* ===================================================================== *)

Section OneRun.

Import Effects.

Lemma not_fails_and_delivers (env : Net.Env) (e : Net.Thrown)
    (r : Feed.EarthquakeResponse) :
  Fails env e -> Delivers env r -> False.
Proof.
  intros F D. pose proof (try_throws_clean env App.initial e F) as H1.
  pose proof (try_returns env r App.initial D) as H2. congruence.
Qed.

(** X6. [loadData] never throws, whatever the platform answers: every failure
    is turned into state.  It always ends with the loading flag cleared and
    the threshold untouched, and it ends without an error message exactly
    when the response had a success status and a body that parsed to an
    object. *)
Theorem loadData_never_throws (env : Net.Env) (s : App.State) :
  outcome (App.loadData env) s = Returned tt /\
  App.loading (exec (App.loadData env) s) = false /\
  App.minMag (exec (App.loadData env) s) = App.minMag s /\
  (App.error (exec (App.loadData env) s) = None <-> exists r, Delivers env r).
Proof.
  unfold outcome, exec. rewrite loadData_unfold.
  destruct (fails_or_delivers env) as [[e F] | [r D]].
  - rewrite (resume_failed env e _ F). simpl. repeat split.
    + discriminate.
    + intros [r D]. exfalso. exact (not_fails_and_delivers env e r F D).
  - rewrite (resume_delivered env r _ D). simpl. repeat split. intros _. now exists r.
Qed.

(** The answer [{}] is a success; status 500 is not. *)
Lemma loadData_never_throws_witness :
  App.error (exec (App.loadData Sample.empty_object) Sample.failed) = None /\
  App.error (exec (App.loadData Sample.http_500) Sample.stale) <> None.
Proof.
  split.
  - apply (proj2 (proj2 (proj2 (loadData_never_throws Sample.empty_object Sample.failed)))).
    exists {| Feed.metadata := None; Feed.features := None |}.
    eexists. split; [reflexivity|]. split; reflexivity.
  - intros H.
    apply (proj1 (proj2 (proj2 (proj2
             (loadData_never_throws Sample.http_500 Sample.stale))))) in H.
    destruct H as (r & res & Hf & Hok & _). injection Hf as <-. discriminate Hok.
Defined.

(** X7. Running [loadData] a second time on the same answer of the platform
    changes nothing, and what a run leaves does not depend on the loading
    flag and the error message it started from. *)
Theorem loadData_idempotent (env : Net.Env) (s : App.State) :
  exec (App.loadData env) (exec (App.loadData env) s) = exec (App.loadData env) s /\
  (forall s', App.features s' = App.features s ->
              App.lastUpdated s' = App.lastUpdated s ->
              App.minMag s' = App.minMag s ->
              exec (App.loadData env) s' = exec (App.loadData env) s).
Proof.
  unfold exec. split.
  - rewrite !loadData_unfold.
    destruct (fails_or_delivers env) as [[e F] | [r D]].
    + rewrite !(resume_failed env e _ F). reflexivity.
    + rewrite !(resume_delivered env r _ D). reflexivity.
  - intros s' Hf Hl Hm. rewrite !loadData_unfold.
    destruct (fails_or_delivers env) as [[e F] | [r D]].
    + rewrite !(resume_failed env e _ F). simpl. now rewrite Hf, Hl, Hm.
    + rewrite !(resume_delivered env r _ D). simpl. now rewrite Hm.
Qed.

(** A second run on the answer [{}], started from a state with other flags. *)
Lemma loadData_idempotent_witness :
  exec (App.loadData Sample.empty_object) Sample.failed =
  exec (App.loadData Sample.empty_object)
       {| App.features := [Sample.a]; App.minMag := JS.of_N 0;
          App.loading := true; App.error := None; App.lastUpdated := None |}.
Proof.
  apply (proj2 (loadData_idempotent Sample.empty_object
                  {| App.features := [Sample.a]; App.minMag := JS.of_N 0;
                     App.loading := true; App.error := None;
                     App.lastUpdated := None |}) Sample.failed);
    reflexivity.
Defined.

Lemma N_toString_inj (a b : N) : JS.N_toString a = JS.N_toString b -> a = b.
Proof.
  unfold JS.N_toString. intros H.
  assert (Hn : forall n, NilZero.uint_of_string (NilZero.string_of_uint (N.to_uint n))
                         = Some (N.to_uint n)).
  { intros n. apply NilZero.usu. destruct n as [|p]; [discriminate|].
    apply DecimalPos.Unsigned.to_uint_nonnil. }
  pose proof (Hn a) as Ha. rewrite H, Hn in Ha. injection Ha as Ha.
  rewrite <- (DecimalN.Unsigned.of_to a), <- (DecimalN.Unsigned.of_to b). now rewrite Ha.
Qed.

(** X8. For a response whose status is outside 200-299 the error message is
    [HTTP] followed by the status in decimal, whatever the body; the message
    is not empty, and two such responses leave the same message only when
    their statuses are equal. *)
Theorem http_error_message (res : Net.Response) (now : JS.number) (s : App.State) :
  Net.ok res = false ->
  App.error (exec (App.loadData {| Net.fetched := Net.FetchResolves res;
                                   Net.now := now |}) s) =
    Some ("HTTP " ++ JS.N_toString (Net.status res)) /\
  "HTTP " ++ JS.N_toString (Net.status res) <> "" /\
  (forall res' now' s',
     Net.ok res' = false ->
     App.error (exec (App.loadData {| Net.fetched := Net.FetchResolves res';
                                      Net.now := now' |}) s') =
     App.error (exec (App.loadData {| Net.fetched := Net.FetchResolves res;
                                      Net.now := now |}) s) ->
     Net.status res' = Net.status res).
Proof.
  intros Hok.
  assert (E : forall r n st, Net.ok r = false ->
            App.error (exec (App.loadData {| Net.fetched := Net.FetchResolves r;
                                             Net.now := n |}) st) =
            Some ("HTTP " ++ JS.N_toString (Net.status r))).
  { intros r n st H. unfold exec.
    rewrite loadData_unfold, (resume_failed _ _ _ (Fails_status r n H)). reflexivity. }
  split; [now apply E|]. split; [discriminate|].
  intros res' now' s' Hok' H. rewrite !E in H by assumption.
  injection H as H. now apply N_toString_inj.
Qed.

(** Status 404 with an HTML body. *)
Lemma http_error_message_witness :
  App.error (exec (App.loadData (Sample.respond 404
               (Net.BodyRejects (Net.ThrownError "Unexpected token <")))) Sample.stale) =
  Some "HTTP 404".
Proof.
  exact (proj1 (http_error_message
                  {| Net.status := 404;
                     Net.body := Net.BodyRejects (Net.ThrownError "Unexpected token <") |}
                  (JS.of_N 1700000300000) Sample.stale eq_refl)).
Defined.

End OneRun.

(* ===================================================================== *)
(** ** Further properties: sequences of events *)
(* ===================================================================== *)

Section Traces.

Import Effects.

Variable parseFloat : string -> JS.number.

Lemma handle_state (ev : App.Event) (s : App.State) :
  fst (App.handle parseFloat ev s) =
  match ev with
  | App.Mount | App.IntervalTick | App.RetryClick => exec App.loadData_begin s
  | App.MinMagChange v => exec (App.onChange parseFloat v) s
  | App.Settled env => exec (App.loadData_resume env) s
  | App.Unmount => s
  end.
Proof. destruct ev; reflexivity. Qed.

Lemma handle_consistent (ev : App.Event) (s : App.State) :
  consistent s -> consistent (fst (App.handle parseFloat ev s)).
Proof.
  intros [H1 H2]. rewrite handle_state. destruct ev as [| | | v | env |];
    try (split; simpl; [auto | exact H2]); try (split; assumption).
  unfold exec. destruct (fails_or_delivers env) as [[e F] | [r D]].
  - rewrite (resume_failed env e s F). split; simpl; [discriminate | exact H2].
  - rewrite (resume_delivered env r s D). split; simpl; discriminate.
Qed.

Lemma run_cons (ev : App.Event) (evs : list App.Event) (s : App.State) :
  run parseFloat (ev :: evs) s =
  (fst (run parseFloat evs (fst (App.handle parseFloat ev s))),
   (snd (App.handle parseFloat ev s) ++
    snd (run parseFloat evs (fst (App.handle parseFloat ev s))))%list).
Proof.
  simpl. destruct (App.handle parseFloat ev s) as [s1 c1]. simpl.
  destruct (run parseFloat evs s1) as [s2 c2]. reflexivity.
Qed.

Lemma run_consistent (evs : list App.Event) (s : App.State) :
  consistent s -> consistent (fst (run parseFloat evs s)).
Proof.
  revert s. induction evs as [|ev evs IH]; intros s H; [exact H|].
  rewrite run_cons. simpl. apply IH. now apply handle_consistent.
Qed.

(** X9. After every sequence of events from the initial state, in whatever
    order fetches start and settle: while the loading flag is set there is
    no error message, and as long as no timestamp is set the event list is
    empty. *)
Theorem reachable_states_consistent (evs : list App.Event) :
  (App.loading (fst (run parseFloat evs App.initial)) = true ->
   App.error (fst (run parseFloat evs App.initial)) = None) /\
  (App.lastUpdated (fst (run parseFloat evs App.initial)) = None ->
   App.features (fst (run parseFloat evs App.initial)) = []).
Proof.
  apply (run_consistent evs App.initial). split; reflexivity.
Qed.

(** X10. A fetch is issued for each mount, tick and Retry of a sequence and
    for nothing else: none is suppressed while another is in flight, and a
    change of the threshold or a settled fetch issues none.  Every request is
    for the feed URL with the cache bypassed. *)
Theorem fetches_match_triggers (evs : list App.Event) (s : App.State) :
  List.length (List.filter is_fetch (snd (run parseFloat evs s))) =
    List.length (List.filter starts_fetch evs) /\
  (forall c, In c (snd (run parseFloat evs s)) -> is_fetch c = true ->
             c = App.Fetch Feed.FEED_URL "no-store").
Proof.
  revert s. induction evs as [|ev evs IH]; intros s.
  - split; [reflexivity|]. intros c [].
  - rewrite run_cons. cbn [snd]. destruct (IH (fst (App.handle parseFloat ev s))) as [IHn IHc].
    split.
    + rewrite filter_app, length_app, IHn.
      destruct ev; reflexivity.
    + intros c Hin Hc. apply in_app_or in Hin. destruct Hin as [Hin | Hin];
        [|now apply IHc].
      destruct ev; simpl in Hin;
        repeat (destruct Hin as [<- | Hin]; [try reflexivity; discriminate Hc|]);
        destruct Hin.
Qed.

End Traces.

(** A failed first fetch followed by a click on Retry. *)
Lemma reachable_states_consistent_witness :
  App.loading (fst (run (fun _ => JS.NaN)
                        [App.Mount; App.Settled Sample.http_500; App.RetryClick]
                        App.initial)) = true /\
  App.error (fst (run (fun _ => JS.NaN)
                      [App.Mount; App.Settled Sample.http_500; App.RetryClick]
                      App.initial)) = None.
Proof.
  split; [reflexivity|].
  apply (proj1 (reachable_states_consistent (fun _ => JS.NaN)
                  [App.Mount; App.Settled Sample.http_500; App.RetryClick])).
  reflexivity.
Defined.

(** Retry clicked twice while the first fetch is in flight. *)
Lemma fetches_match_triggers_witness :
  List.length (List.filter is_fetch
    (snd (run (fun _ => JS.NaN) [App.Mount; App.RetryClick; App.RetryClick]
              App.initial))) = 3%nat /\
  In (App.Fetch Feed.FEED_URL "no-store")
     (snd (run (fun _ => JS.NaN) [App.RetryClick] App.initial)) /\
  is_fetch (App.Fetch Feed.FEED_URL "no-store") = true /\
  App.Fetch Feed.FEED_URL "no-store" = App.Fetch Feed.FEED_URL "no-store".
Proof.
  split.
  - exact (proj1 (fetches_match_triggers (fun _ => JS.NaN)
                    [App.Mount; App.RetryClick; App.RetryClick] App.initial)).
  - assert (H : In (App.Fetch Feed.FEED_URL "no-store")
                   (snd (run (fun _ => JS.NaN) [App.RetryClick] App.initial))).
    { left. reflexivity. }
    split; [exact H|]. split; [reflexivity|].
    exact (proj2 (fetches_match_triggers (fun _ => JS.NaN)
                    [App.RetryClick] App.initial) _ H eq_refl).
Defined.

(* ===================================================================== *)
(** ** Further properties: the threshold and the fetches side by side *)
(* ===================================================================== *)

Section Interleaving.

Import Effects.

Variable parseFloat : string -> JS.number.

Lemma same_data_refl (s : App.State) : same_data s s.
Proof. repeat split. Qed.

Lemma handle_same_data (ev : App.Event) (s s' : App.State) :
  same_data s s' ->
  same_data (fst (App.handle parseFloat ev s)) (fst (App.handle parseFloat ev s')) /\
  snd (App.handle parseFloat ev s) = snd (App.handle parseFloat ev s').
Proof.
  intros (Hf & Hl & He & Hu).
  destruct ev as [| | | v | env |]; simpl; try (repeat split; assumption).
  unfold exec. destruct (fails_or_delivers env) as [[e F] | [r D]].
  - rewrite !(resume_failed env e _ F). simpl. repeat split; assumption.
  - rewrite !(resume_delivered env r _ D). simpl. repeat split; assumption.
Qed.

Lemma handle_minMag (ev : App.Event) (s : App.State) :
  App.minMag (fst (App.handle parseFloat ev s)) =
  match ev with App.MinMagChange v => parseFloat v | _ => App.minMag s end.
Proof.
  destruct ev as [| | | v | env |]; try reflexivity.
  simpl. unfold exec. destruct (fails_or_delivers env) as [[e F] | [r D]].
  - now rewrite (resume_failed env e _ F).
  - now rewrite (resume_delivered env r _ D).
Qed.

Lemma run_same_data (evs : list App.Event) (s s' : App.State) :
  same_data s s' ->
  same_data (fst (run parseFloat evs s))
            (fst (run parseFloat
                      (List.filter (fun ev => negb (is_threshold_change ev)) evs) s')) /\
  snd (run parseFloat evs s) =
  snd (run parseFloat (List.filter (fun ev => negb (is_threshold_change ev)) evs) s').
Proof.
  revert s s'. induction evs as [|ev evs IH]; intros s s' H.
  - split; [exact H | reflexivity].
  - rewrite run_cons. cbn [fst snd].
    destruct (is_threshold_change ev) eqn:Hev.
    + destruct ev; try discriminate Hev. cbn [List.filter is_threshold_change negb].
      apply (IH _ s'). exact H.
    + assert (Hk : List.filter (fun ev => negb (is_threshold_change ev)) (ev :: evs) =
                   ev :: List.filter (fun ev => negb (is_threshold_change ev)) evs).
      { simpl. now rewrite Hev. }
      rewrite Hk, run_cons. cbn [fst snd].
      destruct (handle_same_data ev s s' H) as [Hs Hc].
      destruct (IH _ _ Hs) as [IHs IHc]. split; [exact IHs|]. now rewrite Hc, IHc.
Qed.

Lemma run_minMag (evs : list App.Event) (s : App.State) :
  App.minMag (fst (run parseFloat evs s)) = last_threshold parseFloat evs (App.minMag s).
Proof.
  revert s. induction evs as [|ev evs IH]; intros s; [reflexivity|].
  rewrite run_cons. cbn [fst]. rewrite IH, handle_minMag.
  unfold last_threshold. simpl. destruct ev; reflexivity.
Qed.

(** X11. In every sequence of events the changes of the threshold and the
    fetches do not interfere.  Leaving the threshold changes out of the
    sequence gives the same events, timestamp, loading flag, error message
    and the same commands; and the threshold at the end is [parseFloat] of
    the last change, or the starting one, whatever fetches ran in between. *)
Theorem threshold_and_fetches_independent (evs : list App.Event) (s : App.State) :
  same_data (fst (run parseFloat evs s))
            (fst (run parseFloat
                      (List.filter (fun ev => negb (is_threshold_change ev)) evs) s)) /\
  snd (run parseFloat evs s) =
    snd (run parseFloat (List.filter (fun ev => negb (is_threshold_change ev)) evs) s) /\
  App.minMag (fst (run parseFloat evs s)) = last_threshold parseFloat evs (App.minMag s).
Proof.
  destruct (run_same_data evs s s (same_data_refl s)) as [H1 H2].
  split; [exact H1|]. split; [exact H2 | apply run_minMag].
Qed.

(** X12. Two overlapping fetches, one failing and one delivering an object:
    in either order of settling the component ends in the same state, with
    the delivered events, the error message of the failure and the loading
    flag cleared.  The success does not clear the error: when the message is
    not empty the panel shows it, and no timestamp, beside the new data. *)
Theorem overlapping_failure_and_success (s : App.State) (env1 env2 : Net.Env)
    (e : Net.Thrown) (r : Feed.EarthquakeResponse) :
  Fails env1 e -> Delivers env2 r ->
  fst (run parseFloat
           [App.RetryClick; App.IntervalTick; App.Settled env1; App.Settled env2] s) =
  fst (run parseFloat
           [App.RetryClick; App.IntervalTick; App.Settled env2; App.Settled env1] s) /\
  fst (run parseFloat
           [App.RetryClick; App.IntervalTick; App.Settled env1; App.Settled env2] s) =
  {| App.features := JS.or_else (Feed.features r) [];
     App.minMag := App.minMag s;
     App.loading := false;
     App.error := Some (description e);
     App.lastUpdated :=
       Some (JS.optional_chain (Feed.metadata r) Feed.generated ?? Net.now env2)%js |} /\
  (description e <> "" ->
   Panel.alert (Panel.meta (fst (run parseFloat
     [App.RetryClick; App.IntervalTick; App.Settled env1; App.Settled env2] s))) =
     Some (description e) /\
   forall n, Panel.timestamp (Panel.meta (fst (run parseFloat
     [App.RetryClick; App.IntervalTick; App.Settled env1; App.Settled env2] s))) <>
     Panel.LastUpdated n).
Proof.
  intros F D.
  assert (E : forall s0,
            exec (App.loadData_resume env2) (exec (App.loadData_resume env1) s0) =
            {| App.features := JS.or_else (Feed.features r) [];
               App.minMag := App.minMag s0;
               App.loading := false;
               App.error := Some (description e);
               App.lastUpdated :=
                 Some (JS.optional_chain (Feed.metadata r) Feed.generated
                       ?? Net.now env2)%js |}).
  { intros s0. unfold exec.
    rewrite (resume_failed env1 e s0 F). cbn [snd].
    rewrite (resume_delivered env2 r _ D). reflexivity. }
  assert (E' : forall s0,
            exec (App.loadData_resume env1) (exec (App.loadData_resume env2) s0) =
            exec (App.loadData_resume env2) (exec (App.loadData_resume env1) s0)).
  { intros s0. rewrite E. unfold exec.
    rewrite (resume_delivered env2 r s0 D). cbn [snd].
    rewrite (resume_failed env1 e _ F). reflexivity. }
  rewrite !run_cons. cbn [fst run App.handle App.loadData_call].
  split; [now rewrite E'|]. split; [now rewrite E|].
  intros Hne. rewrite E. unfold Panel.meta, Panel.timestamp_of, Panel.alert_of.
  cbn [Panel.alert Panel.timestamp App.error App.loading App.lastUpdated].
  destruct (description e) as [|c d] eqn:Hd; [congruence|].
  cbn [JS.truthy_string negb]. split; [reflexivity|].
  intros n. destruct (JS.truthy _); discriminate.
Qed.

End Interleaving.

(** The slider moved twice while a fetch fails. *)
Lemma threshold_and_fetches_independent_witness :
  App.error (fst (run (fun _ => JS.of_N 4)
     [App.Mount; App.MinMagChange "4"; App.Settled Sample.http_500] App.initial)) =
  App.error (fst (run (fun _ => JS.of_N 4)
     [App.Mount; App.Settled Sample.http_500] App.initial)) /\
  App.minMag (fst (run (fun _ => JS.of_N 4)
     [App.Mount; App.MinMagChange "4"; App.Settled Sample.http_500] App.initial)) =
  JS.of_N 4.
Proof.
  destruct (threshold_and_fetches_independent (fun _ => JS.of_N 4)
              [App.Mount; App.MinMagChange "4"; App.Settled Sample.http_500]
              App.initial) as ((_ & _ & He & _) & _ & Hm).
  split; [exact He | exact Hm].
Defined.

(** A timer refresh returning status 500 while a retry delivers [features: []]. *)
Lemma overlapping_failure_and_success_witness :
  Fails Sample.http_500 (Net.ThrownError "HTTP 500") /\
  App.error (fst (run (fun _ => JS.NaN)
     [App.RetryClick; App.IntervalTick;
      App.Settled Sample.http_500; App.Settled Sample.no_quakes] Sample.failed)) =
  Some "HTTP 500" /\
  App.features (fst (run (fun _ => JS.NaN)
     [App.RetryClick; App.IntervalTick;
      App.Settled Sample.http_500; App.Settled Sample.no_quakes] Sample.failed)) = [].
Proof.
  assert (F : Fails Sample.http_500 (Net.ThrownError "HTTP 500")).
  { apply (Fails_status
             {| Net.status := 500;
                Net.body := Net.BodyRejects
                              (Net.ThrownError "Unexpected token < in JSON") |}).
    reflexivity. }
  assert (D : Delivers Sample.no_quakes
                {| Feed.metadata :=
                     Some {| Feed.generated := Some (JS.of_N 1700000200000) |};
                   Feed.features := Some [] |}).
  { eexists. split; [reflexivity|]. split; reflexivity. }
  split; [exact F|].
  destruct (overlapping_failure_and_success (fun _ => JS.NaN) Sample.failed
              Sample.http_500 Sample.no_quakes _ _ F D) as (_ & E & _).
  rewrite E. split; reflexivity.
Defined.

(* ===================================================================== *)
(** ** Further properties: the status block *)
(* ===================================================================== *)

Section Status.

Import Effects.

Variable parseFloat : string -> JS.number.

Lemma exec_delivered (env : Net.Env) (r : Feed.EarthquakeResponse) (s : App.State) :
  Delivers env r ->
  exec (App.loadData_resume env) s =
  {| App.features := JS.or_else (Feed.features r) [];
     App.minMag := App.minMag s;
     App.loading := false;
     App.error := App.error s;
     App.lastUpdated :=
       Some (JS.optional_chain (Feed.metadata r) Feed.generated ?? Net.now env)%js |}.
Proof. intros D. unfold exec. now rewrite (resume_delivered env r s D). Qed.

(** X13. Two overlapping fetches that both deliver an object: the events and
    the timestamp are those of the one that settles last, whichever was
    requested first; and the loading flag is cleared as soon as the first of
    the two settles, while the other is still in flight. *)
Theorem overlapping_successes (s : App.State) (env1 env2 : Net.Env)
    (r1 r2 : Feed.EarthquakeResponse) :
  Delivers env1 r1 -> Delivers env2 r2 ->
  App.features (fst (run parseFloat
    [App.RetryClick; App.IntervalTick; App.Settled env1; App.Settled env2] s)) =
    JS.or_else (Feed.features r2) [] /\
  App.lastUpdated (fst (run parseFloat
    [App.RetryClick; App.IntervalTick; App.Settled env1; App.Settled env2] s)) =
    Some (JS.optional_chain (Feed.metadata r2) Feed.generated ?? Net.now env2)%js /\
  App.loading (fst (run parseFloat
    [App.RetryClick; App.IntervalTick; App.Settled env1] s)) = false /\
  Panel.badge (Panel.meta (fst (run parseFloat
    [App.RetryClick; App.IntervalTick; App.Settled env1] s))) = false.
Proof.
  intros D1 D2. rewrite !run_cons. cbn [fst run App.handle App.loadData_call].
  rewrite (exec_delivered env2 r2 _ D2), (exec_delivered env1 r1 _ D1).
  repeat split.
Qed.

Lemma alert_of_Some (error : option string) (msg : string) :
  Panel.alert_of error = Some msg <-> error = Some msg /\ msg <> "".
Proof.
  unfold Panel.alert_of. destruct error as [[|c d]|]; simpl; split.
  - discriminate.
  - intros [H Hne]. injection H as <-. congruence.
  - intros H. injection H as <-. split; [reflexivity | discriminate].
  - intros [H _]. exact H.
  - discriminate.
  - intros [H _]. discriminate H.
Qed.

Lemma timestamp_shown (s : App.State) (n : JS.number) :
  Panel.timestamp_of s = Panel.LastUpdated n ->
  App.lastUpdated s = Some n /\ JS.truthy n = true /\
  App.loading s = false /\ Panel.alert_of (App.error s) = None.
Proof.
  unfold Panel.timestamp_of.
  destruct (App.lastUpdated s) as [m|]; [|discriminate].
  destruct (JS.truthy m) eqn:Ht; [|discriminate].
  destruct (App.loading s); [discriminate|]. cbn [negb].
  destruct (Panel.alert_of (App.error s)); [discriminate|].
  intros H. injection H as <-. auto.
Qed.

(** X14. In every state the error text and its Retry button are shown
    exactly when the error message is set and not empty, and the timestamp is
    shown only without the loading badge and without the error text.  In
    every state reached from the initial one the badge and the error text are
    never shown together either, so at most one of the three is on screen. *)
Theorem status_indicators_exclusive :
  (forall (s : App.State) (msg : string),
     Panel.alert (Panel.meta s) = Some msg <-> App.error s = Some msg /\ msg <> "") /\
  (forall (s : App.State) (n : JS.number),
     Panel.timestamp (Panel.meta s) = Panel.LastUpdated n ->
     Panel.badge (Panel.meta s) = false /\ Panel.alert (Panel.meta s) = None /\
     App.lastUpdated s = Some n) /\
  (forall evs : list App.Event,
     Panel.badge (Panel.meta (fst (run parseFloat evs App.initial))) = true ->
     Panel.alert (Panel.meta (fst (run parseFloat evs App.initial))) = None).
Proof.
  split; [|split].
  - intros s msg. apply alert_of_Some.
  - intros s n H. apply timestamp_shown in H. destruct H as (Hl & _ & Hb & Ha). auto.
  - intros evs Hb. unfold Panel.meta in *. cbn [Panel.badge Panel.alert] in *.
    assert (C : consistent (fst (run parseFloat evs App.initial))).
    { apply run_consistent. split; reflexivity. }
    destruct C as [C _]. now rewrite (C Hb).
Qed.

(** X15. The status block after one run of [loadData].  After a failure
    with a message that is not empty it shows the message with the Retry
    button, no badge and no timestamp.  After a success it shows no badge and
    no error, and the timestamp; when the timestamp is 0 or [NaN] the
    paragraph is replaced by that bare number. *)
Theorem status_after_loadData (env : Net.Env) (s : App.State) :
  (forall e, Fails env e -> description e <> "" ->
     Panel.badge (Panel.meta (exec (App.loadData env) s)) = false /\
     Panel.alert (Panel.meta (exec (App.loadData env) s)) = Some (description e) /\
     forall n, Panel.timestamp (Panel.meta (exec (App.loadData env) s)) <>
               Panel.LastUpdated n) /\
  (forall r, Delivers env r ->
     Panel.meta (exec (App.loadData env) s) =
     {| Panel.badge := false;
        Panel.alert := None;
        Panel.timestamp :=
          if JS.truthy (JS.optional_chain (Feed.metadata r) Feed.generated
                        ?? Net.now env)%js
          then Panel.LastUpdated (JS.optional_chain (Feed.metadata r) Feed.generated
                                  ?? Net.now env)%js
          else Panel.FalsyNumber (JS.optional_chain (Feed.metadata r) Feed.generated
                                  ?? Net.now env)%js |}).
Proof.
  split.
  - intros e F Hne. unfold exec. rewrite loadData_unfold, (resume_failed env e _ F).
    cbn [snd]. unfold Panel.meta, Panel.timestamp_of, Panel.alert_of.
    cbn [Panel.badge Panel.alert Panel.timestamp App.error App.loading App.lastUpdated].
    destruct (description e) as [|c d]; [congruence|]. cbn [JS.truthy_string].
    split; [reflexivity|]. split; [reflexivity|].
    intros n. destruct (App.lastUpdated (exec App.loadData_begin s)) as [m|];
      [|discriminate].
    destruct (JS.truthy m); discriminate.
  - intros r D. unfold exec. rewrite loadData_unfold, (resume_delivered env r _ D).
    cbn [snd]. unfold Panel.meta, Panel.timestamp_of.
    cbn [App.error App.loading App.lastUpdated]. 
    change (App.error (exec App.loadData_begin s)) with (@None string).
    cbn [Panel.alert_of negb].
    destruct (JS.truthy _); reflexivity.
Qed.

End Status.

(** The later of two deliveries is the one with no events. *)
Lemma overlapping_successes_witness :
  App.features (fst (run (fun _ => JS.NaN)
    [App.RetryClick; App.IntervalTick;
     App.Settled Sample.quakes; App.Settled Sample.no_quakes] App.initial)) = [].
Proof.
  refine (proj1 (overlapping_successes (fun _ => JS.NaN) App.initial
                   Sample.quakes Sample.no_quakes
                   {| Feed.metadata :=
                        Some {| Feed.generated := Some (JS.of_N 0) |};
                      Feed.features := Some [Sample.a; Sample.b; Sample.c] |}
                   {| Feed.metadata :=
                        Some {| Feed.generated := Some (JS.of_N 1700000200000) |};
                      Feed.features := Some [] |} _ _));
    (eexists; split; [reflexivity|]; split; reflexivity).
Defined.

(** The Retry button after status 500, and nothing beside the badge while the
    retry is in flight. *)
Lemma status_indicators_exclusive_witness :
  Panel.alert (Panel.meta (fst (run (fun _ => JS.NaN)
    [App.Mount; App.Settled Sample.http_500] App.initial))) = Some "HTTP 500" /\
  Panel.alert (Panel.meta (fst (run (fun _ => JS.NaN)
    [App.Mount; App.Settled Sample.http_500; App.RetryClick] App.initial))) = None.
Proof.
  split.
  - apply (proj1 (status_indicators_exclusive (fun _ => JS.NaN))).
    split; [reflexivity | discriminate].
  - apply (proj2 (proj2 (status_indicators_exclusive (fun _ => JS.NaN)))
             [App.Mount; App.Settled Sample.http_500; App.RetryClick]).
    reflexivity.
Defined.

(** Status 500 over stale data, and a feed whose [generated] is 0. *)
Lemma status_after_loadData_witness :
  Panel.alert (Panel.meta (Effects.exec (App.loadData Sample.http_500) Sample.stale)) =
    Some "HTTP 500" /\
  Panel.timestamp (Panel.meta (Effects.exec (App.loadData Sample.quakes) Sample.stale)) =
    Panel.FalsyNumber (JS.of_N 0).
Proof.
  split.
  - refine (proj1 (proj2 (proj1 (status_after_loadData Sample.http_500 Sample.stale)
                            (Net.ThrownError "HTTP 500") _ _))).
    + apply (Fails_status
               {| Net.status := 500;
                  Net.body := Net.BodyRejects
                                (Net.ThrownError "Unexpected token < in JSON") |}).
      reflexivity.
    + discriminate.
  - rewrite (proj2 (status_after_loadData Sample.quakes Sample.stale)
               {| Feed.metadata := Some {| Feed.generated := Some (JS.of_N 0) |};
                  Feed.features := Some [Sample.a; Sample.b; Sample.c] |}).
    + reflexivity.
    + eexists. split; [reflexivity|]. split; reflexivity.
Defined.
